(** * Motion algorithm of the Coyote device driver (restim)

    Shallow embedding of [device/coyote/motion_algorithm.py]
    ([CoyoteMotionAlgorithm]).  Python floats are modelled as real numbers
    ([R]); Python ints as [Z].  Instance attributes that a method mutates are
    threaded through explicit state records. *)

From Stdlib Require Import Reals Psatz Lra List String Ascii ZArith Bool.
Import ListNotations.

Open Scope R_scope.

(** ** Helpers imported by the module *)

(** Modelled from the spec: [device.coyote.common.clamp] (the module is not
    part of the sources).  The spec uses it as "clamp to [lo, hi]". *)
Definition clamp (x lo hi : R) : R := Rmax lo (Rmin x hi).

(** Python's [int(x)] on a float: truncation toward zero. *)
Definition py_int (x : R) : Z :=
  if Rle_dec 0 x then Int_part x else (- Int_part (- x))%Z.

(** ** Fade state and [_calculate_motion_amplitude] *)

Record fade_state := mkFade {
  fade_level : R;                 (* self._fade_level *)
  last_fade_time : option R;      (* self._last_fade_time *)
  is_moving : bool                (* self._is_moving *)
}.

(** State set by [__init__]. *)
Definition fade_init : fade_state := mkFade 0 None false.

(** The [time_delta] computed at the start of a call. *)
Definition fade_time_delta (s : fade_state) (current_time : R) : R :=
  match last_fade_time s with
  | None => 0
  | Some lt => current_time - lt
  end.

Definition movement_detected (velocity : R) : bool :=
  let movement_threshold := 0.01 in
  if Rlt_dec movement_threshold (Rabs velocity) then true else false.

(** The new [_fade_level] of the update block. *)
Definition next_fade_level (moving : bool) (fade : R) (time_delta : R)
    (fade_out_time fade_in_time : R) : R :=
  if moving then
    (if Rlt_dec 0 fade_in_time then
       if Rlt_dec 0 time_delta then
         let fade_rate := 1 / fade_in_time in
         Rmin 1 (fade + fade_rate * time_delta)
       else 1
     else 1)
  else
    (if Rlt_dec 0 fade_out_time then
       if Rlt_dec 0 time_delta then
         let fade_rate := 1 / fade_out_time in
         Rmax 0 (fade - fade_rate * time_delta)
       else 0
     else 0).

(** [_calculate_motion_amplitude(normalized_pos, velocity, current_time)];
    the two fade durations are the values read from the settings during the
    call.  Returns the amplitude and the updated fade state. *)
Definition calculate_motion_amplitude (s : fade_state)
    (normalized_pos velocity current_time : R)
    (fade_out_time fade_in_time : R) : R * fade_state :=
  let moving := movement_detected velocity in
  let time_delta := fade_time_delta s current_time in
  let lvl := next_fade_level moving (fade_level s) time_delta
               fade_out_time fade_in_time in
  let s' := mkFade lvl (Some current_time) moving in
  if Rle_dec lvl 0 then (0, s')
  else
    let base_amp := 0.6 in
    let distance_from_center := Rabs (normalized_pos - 0.5) * 2 in
    let extreme_boost := distance_from_center * 0.3 in
    let raw_amplitude := base_amp + extreme_boost in
    let amplitude := raw_amplitude * lvl in
    (clamp amplitude 0 1, s').

(** Fade states reachable from [__init__] by amplitude queries. *)
Inductive fade_reachable : fade_state -> Prop :=
| fade_reach_init : fade_reachable fade_init
| fade_reach_step s p v t fo fi :
    fade_reachable s ->
    fade_reachable (snd (calculate_motion_amplitude s p v t fo fi)).

(** ** [_apply_positional_effect] *)

Definition apply_positional_effect (amplitude position : R) : R * R :=
  let positional_strength := 1 in
  let effective_position :=
    0.5 * (1 - positional_strength) + position * positional_strength in
  let amplitude_a := amplitude * sqrt (1 - effective_position) in
  let amplitude_b := amplitude * sqrt effective_position in
  (amplitude_a, amplitude_b).

(** ** Pulses and [generate_packet] scheduling *)

Record CoyotePulse := mkPulse {
  frequency : Z;
  intensity : Z;
  duration : Z
}.

Record CoyotePulses := mkPulses {
  channel_a : list CoyotePulse;
  channel_b : list CoyotePulse
}.

(** [sum(p.duration for p in pulses) if pulses else 0] *)
Definition channel_duration (pulses : list CoyotePulse) : Z :=
  match pulses with
  | [] => 0%Z
  | _ => fold_right (fun p acc => (duration p + acc)%Z) 0%Z pulses
  end.

(** [min_duration_ms] of [generate_packet]:
    [max(1, min(a, b) if min(a, b) > 0 else max(a, b, 1))]. *)
Definition min_duration_ms (duration_a duration_b : Z) : Z :=
  Z.max 1 (if (0 <? Z.min duration_a duration_b)%Z
           then Z.min duration_a duration_b
           else Z.max (Z.max duration_a duration_b) 1).

(** [self.next_update_time] as set by [generate_packet(current_time)] for
    the packet [pulses] returned by [get_pulses_at_time]. *)
Definition next_update_time (current_time : R) (pulses : CoyotePulses) : R :=
  let duration_a := channel_duration (channel_a pulses) in
  let duration_b := channel_duration (channel_b pulses) in
  current_time + (IZR (min_duration_ms duration_a duration_b) / 1000) * 0.65.

(** ** Dynamic volume state and [_calculate_dynamic_volume] *)

Record dyn_state := mkDyn {
  dynamic_velocity_history : list (R * R);   (* (timestamp, velocity) *)
  last_velocity_sign : Z;
  direction_change_times : list R
}.

Definition dyn_init : dyn_state := mkDyn [] 0%Z [].

(** Settings read by [_calculate_dynamic_volume]. *)
Record dyn_settings := mkDynSettings {
  dynamic_window_size : R;      (* COYOTE_MOTION_DYNAMIC_WINDOW_SIZE *)
  dynamic_sensitivity : R;      (* COYOTE_MOTION_DYNAMIC_SENSITIVITY *)
  base_volume : R;              (* COYOTE_MOTION_BASE_VOLUME *)
  dynamic_mix_ratio : R         (* COYOTE_MOTION_DYNAMIC_MIX_RATIO *)
}.

(** Run-time classification:
    [1 if current_velocity > 0.01 else (-1 if current_velocity < -0.01 else 0)]. *)
Definition dyn_velocity_sign (current_velocity : R) : Z :=
  if Rlt_dec 0.01 current_velocity then 1%Z
  else if Rlt_dec current_velocity (-0.01) then (-1)%Z
  else 0%Z.

Definition Rsum (l : list R) : R := fold_right Rplus 0 l.

(** [_calculate_dynamic_volume(current_velocity, current_time)].
    [max_speed] and [max_stroke_rate] are [self.calibrated_max_speed] and
    [self.calibrated_max_stroke_rate].  Returns the volume and the new state. *)
Definition calculate_dynamic_volume (st : dyn_state) (cfg : dyn_settings)
    (max_speed max_stroke_rate : R)
    (current_velocity current_time : R) : R * dyn_state :=
  let window_size := dynamic_window_size cfg in
  let sensitivity := dynamic_sensitivity cfg in
  let base_volume := base_volume cfg in
  (* Track velocity history *)
  let history := dynamic_velocity_history st ++ [(current_time, current_velocity)] in
  (* Detect direction changes *)
  let current_sign := dyn_velocity_sign current_velocity in
  let last_sign := last_velocity_sign st in
  let changes :=
    if negb (current_sign =? 0)%Z && negb (last_sign =? 0)%Z
       && negb (current_sign =? last_sign)%Z
    then direction_change_times st ++ [current_time]
    else direction_change_times st in
  let last_sign' := if negb (current_sign =? 0)%Z then current_sign else last_sign in
  (* Prune old entries *)
  let cutoff_time := current_time - window_size in
  let history' :=
    filter (fun tv => if Rle_dec cutoff_time (fst tv) then true else false) history in
  let changes' :=
    filter (fun t => if Rle_dec cutoff_time t then true else false) changes in
  let avg_velocity :=
    if (0 <? List.length history')%nat
    then Rsum (map (fun tv => Rabs (snd tv)) history') / INR (List.length history')
    else Rabs current_velocity in
  let stroke_count := List.length changes' in
  let stroke_rate :=
    if Rlt_dec 0 window_size then INR stroke_count / window_size else 0 in
  let normalized_velocity := clamp (avg_velocity / max_speed) 0 1 in
  let normalized_stroke_rate := clamp (stroke_rate / max_stroke_rate) 0 1 in
  let mix_ratio := dynamic_mix_ratio cfg in
  let intensity_metric :=
    mix_ratio * normalized_velocity + (1 - mix_ratio) * normalized_stroke_rate in
  let full_range_volume := base_volume + (1 - base_volume) * intensity_metric in
  let dynamic_volume := 1 - sensitivity * (1 - full_range_volume) in
  (dynamic_volume, mkDyn history' last_sign' changes').

(** The intensity metric of a call, as computed inside
    [_calculate_dynamic_volume] (same expressions, returned separately so
    that statements can refer to it). *)
Definition dynamic_intensity_metric (st : dyn_state) (cfg : dyn_settings)
    (max_speed max_stroke_rate : R)
    (current_velocity current_time : R) : R :=
  let window_size := dynamic_window_size cfg in
  let history := dynamic_velocity_history st ++ [(current_time, current_velocity)] in
  let current_sign := dyn_velocity_sign current_velocity in
  let last_sign := last_velocity_sign st in
  let changes :=
    if negb (current_sign =? 0)%Z && negb (last_sign =? 0)%Z
       && negb (current_sign =? last_sign)%Z
    then direction_change_times st ++ [current_time]
    else direction_change_times st in
  let cutoff_time := current_time - window_size in
  let history' :=
    filter (fun tv => if Rle_dec cutoff_time (fst tv) then true else false) history in
  let changes' :=
    filter (fun t => if Rle_dec cutoff_time t then true else false) changes in
  let avg_velocity :=
    if (0 <? List.length history')%nat
    then Rsum (map (fun tv => Rabs (snd tv)) history') / INR (List.length history')
    else Rabs current_velocity in
  let stroke_count := List.length changes' in
  let stroke_rate :=
    if Rlt_dec 0 window_size then INR stroke_count / window_size else 0 in
  let normalized_velocity := clamp (avg_velocity / max_speed) 0 1 in
  let normalized_stroke_rate := clamp (stroke_rate / max_stroke_rate) 0 1 in
  let mix_ratio := dynamic_mix_ratio cfg in
  mix_ratio * normalized_velocity + (1 - mix_ratio) * normalized_stroke_rate.

(** The dynamic-volume step of [get_pulses_at_time]: the new
    [self.current_dynamic_volume] and dynamic-volume state. *)
Definition update_dynamic_volume (dynamic_enabled : bool) (st : dyn_state)
    (cfg : dyn_settings) (max_speed max_stroke_rate vel time : R) : R * dyn_state :=
  if dynamic_enabled
  then calculate_dynamic_volume st cfg max_speed max_stroke_rate vel time
  else (1, st).

(** ** Calibration-time stroke counting ([_precompute_amplitude_range]) *)

(** [1 if vel > 0.01 else (-1 if vel < -0.01 else 0)] *)
Definition calib_velocity_sign (vel : R) : Z :=
  if Rlt_dec 0.01 vel then 1%Z
  else if Rlt_dec vel (-0.01) then (-1)%Z
  else 0%Z.

(** The [for vel in velocities] loop, from [(direction_changes, last_sign)]. *)
Fixpoint count_direction_changes_loop (velocities : list R)
    (direction_changes : nat) (last_sign : Z) : nat * Z :=
  match velocities with
  | [] => (direction_changes, last_sign)
  | vel :: rest =>
      let current_sign := calib_velocity_sign vel in
      let direction_changes' :=
        if negb (current_sign =? 0)%Z && negb (last_sign =? 0)%Z
           && negb (current_sign =? last_sign)%Z
        then S direction_changes else direction_changes in
      let last_sign' := if negb (current_sign =? 0)%Z then current_sign else last_sign in
      count_direction_changes_loop rest direction_changes' last_sign'
  end.

Definition count_direction_changes (velocities : list R) : nat :=
  fst (count_direction_changes_loop velocities 0 0%Z).

(** A stroke between the previous non-neutral sign and the current sign. *)
Definition stroke_flip (last_sign current_sign : Z) : bool :=
  negb (current_sign =? 0)%Z && negb (last_sign =? 0)%Z
  && negb (current_sign =? last_sign)%Z.

(** ** Frequency shaping ([_calculate_enhanced_frequency]) *)

(** [str.upper] on ASCII text. *)
Definition upper_ascii (c : ascii) : ascii :=
  let n := nat_of_ascii c in
  if (97 <=? n)%nat && (n <=? 122)%nat then ascii_of_nat (n - 32) else c.

Fixpoint upper (s : string) : string :=
  match s with
  | EmptyString => EmptyString
  | String c rest => String (upper_ascii c) (upper rest)
  end.

(** Python's substring test [needle in hay]. *)
Definition py_in (needle hay : string) : bool :=
  match String.index 0 needle hay with
  | Some _ => true
  | None => false
  end.

Inductive freq_branch := BPosition | BThrob | BVaried | BBlend | BFixed.

(** The [if/elif] chain on [algo_str]; an empty setting counts as
    ["FIXED"] ([str(freq_algorithm).upper() if freq_algorithm else "FIXED"]). *)
Definition select_frequency_branch (freq_algorithm : string) : freq_branch :=
  let algo_str := if String.eqb freq_algorithm "" then "FIXED"%string
                  else upper freq_algorithm in
  if py_in "POSITION" algo_str && negb (py_in "BLEND" algo_str) then BPosition
  else if py_in "THROB" algo_str then BThrob
  else if py_in "VARIED" algo_str || py_in "NOISE" algo_str then BVaried
  else if py_in "BLEND" algo_str then BBlend
  else BFixed.

(** Settings read while computing a frequency. *)
Record freq_settings := mkFreqSettings {
  bottom_region_threshold : R;   (* COYOTE_MOTION_BOTTOM_REGION_THRESHOLD *)
  upper_region_threshold : R;    (* COYOTE_MOTION_UPPER_REGION_THRESHOLD *)
  throbbing_intensity : R;       (* COYOTE_MOTION_THROBBING_INTENSITY *)
  frequency_velocity_factor : R  (* COYOTE_MOTION_FREQUENCY_VELOCITY_FACTOR *)
}.

Definition position_frequency (position min_freq max_freq : R) : R :=
  min_freq + position * (max_freq - min_freq).

Definition throbbing_frequency (cfg : freq_settings)
    (position time min_freq max_freq : R) : R :=
  let in_bottom_region := if Rlt_dec position (bottom_region_threshold cfg) then true else false in
  let in_upper_region := if Rlt_dec (upper_region_threshold cfg) position then true else false in
  if in_bottom_region || in_upper_region then
    let throbbing_freq := 2 in
    let throbbing_modulation := sin (2 * PI * throbbing_freq * time) * throbbing_intensity cfg in
    let base_freq := position_frequency position min_freq max_freq in
    if in_bottom_region then base_freq * (1 + throbbing_modulation)
    else base_freq * (1 + throbbing_modulation * 0.5)
  else position_frequency position min_freq max_freq.

Definition varied_frequency (position time min_freq max_freq : R) : R :=
  let noise_value := sin (time * 0.7) * 0.2 + sin (time * 1.3) * 0.1 in
  let base_freq := position_frequency position min_freq max_freq in
  base_freq * (1 + noise_value).

Definition blend_frequency (position time min_freq max_freq : R) : R :=
  let base_freq := position_frequency position min_freq max_freq in
  let varied_freq := varied_frequency position time min_freq max_freq in
  0.5 * base_freq + 0.5 * varied_freq.

(** [_calculate_enhanced_frequency(position, time, channel)] for a channel
    whose bounds read [min_freq] and [max_freq].  [avg_velocity] is the value
    returned by [_get_average_velocity_in_window(time)] and [max_speed] the
    [calibrated_max_speed] read after it. *)
Definition calculate_enhanced_frequency (cfg : freq_settings)
    (freq_algorithm : string) (min_freq max_freq : R)
    (avg_velocity max_speed : R) (position time : R) : R :=
  let base_freq :=
    match select_frequency_branch freq_algorithm with
    | BPosition => position_frequency position min_freq max_freq
    | BThrob => throbbing_frequency cfg position time min_freq max_freq
    | BVaried => varied_frequency position time min_freq max_freq
    | BBlend => blend_frequency position time min_freq max_freq
    | BFixed => (min_freq + max_freq) / 2
    end in
  let velocity_factor_setting := frequency_velocity_factor cfg in
  let normalized_speed := clamp (avg_velocity / max_speed) 0 1 in
  let velocity_based_freq := min_freq + normalized_speed * (max_freq - min_freq) in
  let modulated_freq :=
    base_freq * (1 - velocity_factor_setting)
    + velocity_based_freq * velocity_factor_setting in
  clamp modulated_freq min_freq max_freq.

(** ** Profile construction and calibration *)

(** The two numpy routines the calibration calls ([np.gradient(y, x)] and
    [np.percentile(a, q)]); they belong to numpy, not to this repository, so
    every statement below holds for any implementation of them. *)
Record numpy_ops := mkNumpy {
  np_gradient : list R -> list R -> list R;
  np_percentile : list R -> R -> R
}.

Record engine := mkEngine {
  position_data : list (R * R);
  velocity_data : list (R * R);
  acceleration_data : list (R * R);
  calibrated_max_speed : R;
  calibrated_max_magnitude : R;
  calibrated_max_stroke_rate : R;
  last_calibration_timeframe : option R
}.

(** Attributes set by [__init__] before [_precompute_motion_data]. *)
Definition engine_init : engine := mkEngine [] [] [] 5 80 2 None.

Definition set_motion_data (st : engine) (pd vd ad : list (R * R)) : engine :=
  mkEngine pd vd ad (calibrated_max_speed st) (calibrated_max_magnitude st)
    (calibrated_max_stroke_rate st) (last_calibration_timeframe st).

Definition set_max_speed (st : engine) (ms : R) : engine :=
  mkEngine (position_data st) (velocity_data st) (acceleration_data st) ms
    (calibrated_max_magnitude st) (calibrated_max_stroke_rate st)
    (last_calibration_timeframe st).

Definition set_calibration (st : engine) (ms mm : R) : engine :=
  mkEngine (position_data st) (velocity_data st) (acceleration_data st) ms mm
    (calibrated_max_stroke_rate st) (last_calibration_timeframe st).

Definition set_max_stroke_rate (st : engine) (msr : R) : engine :=
  mkEngine (position_data st) (velocity_data st) (acceleration_data st)
    (calibrated_max_speed st) (calibrated_max_magnitude st) msr
    (last_calibration_timeframe st).

Definition set_last_timeframe (st : engine) (tf : R) : engine :=
  mkEngine (position_data st) (velocity_data st) (acceleration_data st)
    (calibrated_max_speed st) (calibrated_max_magnitude st)
    (calibrated_max_stroke_rate st) (Some tf).

(** [times = [p[0] for p in self.position_data]] and
    [time_span = times[-1] - times[0] if len(times) > 1 else 1.0]. *)
Definition profile_times (st : engine) : list R := map fst (position_data st).

Definition time_span_of (times : list R) : R :=
  if (1 <? List.length times)%nat then last times 0 - hd 0 times else 1.

(** One window of the calibration scan: the mean [|v|] of the samples with
    [window_start <= t <= window_end], if there are any. *)
Definition window_average (velocity_data : list (R * R))
    (calibration_window current_time : R) : list R :=
  let window_start := current_time - calibration_window / 2 in
  let window_end := current_time + calibration_window / 2 in
  let velocities_in_window :=
    map (fun tv => Rabs (snd tv))
      (filter (fun tv => if Rle_dec window_start (fst tv) then
                           if Rle_dec (fst tv) window_end then true else false
                         else false) velocity_data) in
  if (0 <? List.length velocities_in_window)%nat
  then [Rsum velocities_in_window / INR (List.length velocities_in_window)]
  else [].

(** The [while current_time <= times[-1]] loop, stepping by
    [calibration_window / 2]; a relation, since the loop need not stop. *)
Inductive scan_windows (velocity_data : list (R * R)) (calibration_window t_end : R)
    : R -> list R -> Prop :=
| scan_done current_time :
    t_end < current_time ->
    scan_windows velocity_data calibration_window t_end current_time []
| scan_next current_time rest :
    current_time <= t_end ->
    scan_windows velocity_data calibration_window t_end
      (current_time + calibration_window / 2) rest ->
    scan_windows velocity_data calibration_window t_end current_time
      (window_average velocity_data calibration_window current_time ++ rest).

(** [_recalibrate_velocity_range()], with [timeframe] the value of
    [COYOTE_MOTION_VELOCITY_TIMEFRAME]. *)
Inductive recalibrate_velocity_range (np : numpy_ops) (st : engine) (timeframe : R)
    : engine -> Prop :=
| recal_short :
    (List.length (velocity_data st) < 2)%nat ->
    recalibrate_velocity_range np st timeframe
      (set_last_timeframe (set_max_speed st 0.5) timeframe)
| recal_scan window_averages :
    (2 <= List.length (velocity_data st))%nat ->
    let times := profile_times st in
    let time_span := time_span_of times in
    let calibration_window :=
      if Rlt_dec 0 time_span then Rmin timeframe (time_span / 4) else 5 in
    scan_windows (velocity_data st) calibration_window (last times 0) (hd 0 times)
      window_averages ->
    let max_speed :=
      if (0 <? List.length window_averages)%nat
      then Rmax (np_percentile np window_averages 95) 0.5 else 0.5 in
    recalibrate_velocity_range np st timeframe
      (set_max_speed (set_last_timeframe st timeframe) max_speed).

(** The stroke-rate part of [_precompute_amplitude_range]. *)
Definition calibrated_stroke_rate (times velocities : list R) : R :=
  let time_span := time_span_of times in
  let direction_changes := count_direction_changes velocities in
  let avg_stroke_rate :=
    if Rlt_dec 0 time_span then INR direction_changes / time_span else 1 in
  Rmax (avg_stroke_rate * 1.5) 1.

Definition default_profile (st : engine) : engine :=
  set_motion_data st [(0, 0.5)] [(0, 0)] [(0, 0)].

(** [_precompute_motion_data()]: [script] is [None] when the alpha axis has
    no [timeline], else [Some (times, positions)]. *)
Inductive precompute_motion_data (np : numpy_ops) (st : engine)
    : option (list R * list R) -> R -> engine -> Prop :=
| precompute_no_timeline timeframe :
    precompute_motion_data np st None timeframe (default_profile st)
| precompute_short times positions timeframe :
    (List.length positions < 2 \/ List.length times < 2)%nat ->
    precompute_motion_data np st (Some (times, positions)) timeframe (default_profile st)
| precompute_full times positions timeframe st1 :
    (2 <= List.length positions)%nat -> (2 <= List.length times)%nat ->
    let velocities := np_gradient np positions times in
    let accelerations := np_gradient np velocities times in
    let st0 :=
      set_calibration
        (set_motion_data st (combine times positions) (combine times velocities)
           (combine times accelerations))
        (Rmax (np_percentile np (map Rabs velocities) 95) 0.5)
        (Rmax (np_percentile np (map Rabs accelerations) 95) 5) in
    recalibrate_velocity_range np st0 timeframe st1 ->
    precompute_motion_data np st (Some (times, positions)) timeframe
      (set_max_stroke_rate st1 (calibrated_stroke_rate (profile_times st1) velocities)).

(** Engine states reachable by construction ([__init__]), later calls of
    [_precompute_motion_data] and recalibrations (triggered by
    [_check_recalibration_needed]). *)
Inductive engine_reachable (np : numpy_ops) : engine -> Prop :=
| reach_construct script timeframe st :
    precompute_motion_data np engine_init script timeframe st ->
    engine_reachable np st
| reach_precompute st script timeframe st' :
    engine_reachable np st ->
    precompute_motion_data np st script timeframe st' ->
    engine_reachable np st'
| reach_recalibrate st timeframe st' :
    engine_reachable np st ->
    recalibrate_velocity_range np st timeframe st' ->
    engine_reachable np st'.

Definition calibration_floors_hold (st : engine) : Prop :=
  0.5 <= calibrated_max_speed st /\
  5 <= calibrated_max_magnitude st /\
  1 <= calibrated_max_stroke_rate st.

(** ** [_generate_motion_pulses] *)

(** The hardware bounds [HARDWARE_MIN_FREQ_HZ], [HARDWARE_MAX_FREQ_HZ],
    [MIN_PULSE_DURATION_MS] and [MAX_PULSE_DURATION_MS] come from
    [device.coyote.constants], which is not part of the sources and whose
    values the spec does not give: they are parameters here. *)
Definition generate_motion_pulses
    (hardware_min_freq_hz hardware_max_freq_hz : R)
    (min_pulse_duration_ms max_pulse_duration_ms : R)
    (freq_a freq_b : R) (intensity_a intensity_b : Z) : CoyotePulses :=
  let freq_a := clamp freq_a hardware_min_freq_hz hardware_max_freq_hz in
  let freq_b := clamp freq_b hardware_min_freq_hz hardware_max_freq_hz in
  let duration_a :=
    py_int (clamp (1000 / freq_a) min_pulse_duration_ms max_pulse_duration_ms) in
  let duration_b :=
    py_int (clamp (1000 / freq_b) min_pulse_duration_ms max_pulse_duration_ms) in
  let intensity_a := py_int (clamp (IZR intensity_a) 0 100) in
  let intensity_b := py_int (clamp (IZR intensity_b) 0 100) in
  let pulse_a := mkPulse (py_int freq_a) intensity_a duration_a in
  let pulse_b := mkPulse (py_int freq_b) intensity_b duration_b in
  mkPulses (repeat pulse_a 4) (repeat pulse_b 4).

(** ** [_check_recalibration_needed] and [_get_average_velocity_in_window] *)

(** [_check_recalibration_needed()] with [timeframe] the current
    [COYOTE_MOTION_VELOCITY_TIMEFRAME]: recalibrate when no timeframe is
    cached or it differs. *)
Inductive check_recalibration_needed (np : numpy_ops) (st : engine) (timeframe : R)
    : engine -> Prop :=
| check_unchanged :
    last_calibration_timeframe st = Some timeframe ->
    check_recalibration_needed np st timeframe st
| check_recalibrate st' :
    last_calibration_timeframe st <> Some timeframe ->
    recalibrate_velocity_range np st timeframe st' ->
    check_recalibration_needed np st timeframe st'.

(** The video time used by the two lookups: the mapper's result when it is
    a number [>= 0], else the query time.  [mapped] is [None] when there is
    no mapper, it returns [None], or it raises. *)
Definition map_video_time (mapped : option R) (current_time : R) : R :=
  match mapped with
  | Some m => if Rle_dec 0 m then m else current_time
  | None => current_time
  end.

(** The averaging part of [_get_average_velocity_in_window]. *)
Definition average_velocity_in_window (velocity_data : list (R * R))
    (video_time timeframe : R) : R :=
  let half_window := timeframe / 2 in
  let window_start := video_time - half_window in
  let window_end := video_time + half_window in
  let velocities_in_window :=
    map (fun tv => Rabs (snd tv))
      (filter (fun tv => if Rle_dec window_start (fst tv) then
                           if Rle_dec (fst tv) window_end then true else false
                         else false) velocity_data) in
  if (0 <? List.length velocities_in_window)%nat
  then Rsum velocities_in_window / INR (List.length velocities_in_window)
  else 0.

(** [_get_average_velocity_in_window(current_time)]: the recalibration check,
    then the average over the window centred on the video time. *)
Inductive get_average_velocity_in_window (np : numpy_ops) (st : engine)
    (mapped : option R) (timeframe current_time : R) : engine -> R -> Prop :=
| get_average st' :
    check_recalibration_needed np st timeframe st' ->
    get_average_velocity_in_window np st mapped timeframe current_time st'
      (average_velocity_in_window (velocity_data st')
         (map_video_time mapped current_time) timeframe).

(** Largest [|v|] of a velocity series ([0] for none). *)
Definition max_abs_velocity (velocity_data : list (R * R)) : R :=
  fold_right (fun tv acc => Rmax (Rabs (snd tv)) acc) 0 velocity_data.

(** [has_funscript_data()] (the attributes exist once
    [_precompute_motion_data] has run). *)
Definition has_funscript_data (st : engine) : bool :=
  (1 <? List.length (position_data st))%nat && (1 <? List.length (velocity_data st))%nat.

(** ** [get_pulses_at_time] *)

Record motion_state := mkMotion {
  fade : fade_state;
  dyn : dyn_state;
  prev_position : option R;         (* self._prev_position *)
  prev_position_time : option R;    (* self._prev_position_time *)
  realtime_velocity : R;            (* self._realtime_velocity *)
  current_dynamic_volume : R        (* self.current_dynamic_volume *)
}.

Definition motion_init : motion_state := mkMotion fade_init dyn_init None None 0 1.

(** The real-time velocity update of [get_pulses_at_time]. *)
Definition next_realtime_velocity (ms : motion_state) (pos vel time : R) : R :=
  match prev_position ms, prev_position_time ms with
  | Some pp, Some pt =>
      let time_delta := time - pt in
      if Rlt_dec 0.001 time_delta then (pos - pp) / time_delta
      else realtime_velocity ms
  | _, _ => vel
  end.

(** [get_pulses_at_time(time)].  [pos] and [vel] are the values
    [_get_position_velocity_acceleration(time)] interpolates; [freq_a] and
    [freq_b] the values [_calculate_enhanced_frequency] returns for the two
    channels; [api_volume * master_volume] is [_get_standard_volume_at_time];
    the remaining arguments are the settings and calibration values read
    during the call and the hardware constants.  The write of the dynamic
    volume to the external (display) axis is not modelled. *)
Definition get_pulses_at_time
    (hardware_min_freq_hz hardware_max_freq_hz : R)
    (min_pulse_duration_ms max_pulse_duration_ms : R)
    (ms : motion_state) (pos vel time : R)
    (fade_out_time fade_in_time : R)
    (dynamic_enabled : bool) (cfg : dyn_settings) (max_speed max_stroke_rate : R)
    (freq_a freq_b : R) (api_volume master_volume : R) : CoyotePulses * motion_state :=
  let normalized_pos := clamp ((pos + 1) / 2) 0 1 in
  let rv := next_realtime_velocity ms pos vel time in
  let (motion_amplitude, fade') :=
    calculate_motion_amplitude (fade ms) normalized_pos rv time fade_out_time fade_in_time in
  let (dynamic_volume, dyn') :=
    update_dynamic_volume dynamic_enabled (dyn ms) cfg max_speed max_stroke_rate vel time in
  let (channel_a_amp, channel_b_amp) := apply_positional_effect motion_amplitude normalized_pos in
  let volume_at_time := (api_volume * master_volume) * dynamic_volume in
  let channel_a_intensity := py_int (channel_a_amp * volume_at_time * 100) in
  let channel_b_intensity := py_int (channel_b_amp * volume_at_time * 100) in
  (generate_motion_pulses hardware_min_freq_hz hardware_max_freq_hz
     min_pulse_duration_ms max_pulse_duration_ms freq_a freq_b
     channel_a_intensity channel_b_intensity,
   mkMotion fade' dyn' (Some pos) (Some time) rv dynamic_volume).

(** ** [MotionDynamicVolumeAxis] ([motion_dynamic_volume_axis.py]) *)

(** [abs(samples[i] - samples[i-1])] for [i] in [1 .. len(samples)-1]. *)
Fixpoint consecutive_abs_diffs (samples : list R) : list R :=
  match samples with
  | a :: ((b :: _) as rest) => Rabs (b - a) :: consecutive_abs_diffs rest
  | _ => []
  end.

(** [_calculate_recent_activity_level(current_time)];
    [funscript_interpolate] is [self.funscript_axis.interpolate]. *)
Definition calculate_recent_activity_level (funscript_interpolate : R -> R)
    (window_size current_time : R) : R :=
  let sample_interval := 0.1 in
  let samples :=
    map (fun i => funscript_interpolate (current_time - INR i * sample_interval))
      (seq 0 (Z.to_nat (py_int (window_size / sample_interval)))) in
  if (List.length samples <? 2)%nat then 0.5
  else
    let velocities := consecutive_abs_diffs samples in
    let avg_velocity := Rsum velocities / INR (List.length velocities) in
    Rmin (avg_velocity / 50) 1.

(** [MotionDynamicVolumeAxis.interpolate(timestamp)]. *)
Definition dynamic_volume_axis_interpolate (funscript_interpolate : R -> R)
    (window_size timestamp : R) : R :=
  let recent_velocity :=
    calculate_recent_activity_level funscript_interpolate window_size timestamp in
  0.5 + recent_velocity * 1.

(** ** Example inputs *)

Definition freq_settings_example : freq_settings := mkFreqSettings 0.3 0.7 0.3 0.5.

Definition numpy_example : numpy_ops := mkNumpy (fun _ _ => []) (fun _ _ => 0).

Definition dyn_settings_example : dyn_settings := mkDynSettings 2 0.5 0.2 0.5.

(** A [np.gradient] with numpy's output length (one value per sample). *)
Definition numpy_zero_gradient : numpy_ops :=
  mkNumpy (fun ys _ => map (fun _ => 0) ys) (fun _ _ => 0).

Definition two_sample_engine : engine :=
  mkEngine [(0, 0); (1, 1)] [(0, 1); (1, 1)] [(0, 0); (1, 0)] 5 80 2 None.

Definition calibrated_engine : engine := set_last_timeframe two_sample_engine 1.

Definition freq_settings_factor (f : R) : freq_settings := mkFreqSettings 0.3 0.7 0.3 f.

(** ** Lemmas *)

Lemma clamp_bounds x lo hi : lo <= hi -> lo <= clamp x lo hi <= hi.
Proof.
  intros H; unfold clamp, Rmax, Rmin.
  repeat destruct Rle_dec; lra.
Qed.

Lemma clamp_inside x lo hi : lo <= x <= hi -> clamp x lo hi = x.
Proof.
  intros H; unfold clamp, Rmax, Rmin.
  repeat destruct Rle_dec; lra.
Qed.

Ltac clamp01_bounds :=
  repeat match goal with
  | |- context [clamp ?x 0 1] =>
      let c := fresh "c" in
      pose proof (clamp_bounds x 0 1 ltac:(lra)); set (c := clamp x 0 1) in *;
      clearbody c
  end.

Lemma next_fade_level_bounds m f dt fo fi :
  0 <= f <= 1 -> 0 <= next_fade_level m f dt fo fi <= 1.
Proof.
  intros Hf; unfold next_fade_level.
  destruct m; repeat destruct Rlt_dec; try lra;
    unfold Rmin, Rmax; destruct Rle_dec; try lra;
    match goal with
    | |- context [1 / ?x * ?d] =>
        assert (0 <= 1 / x * d)
          by (apply Rmult_le_pos; [apply Rlt_le, Rdiv_lt_0_compat|]; lra)
    end; lra.
Qed.

Lemma fade_reachable_bounds s :
  fade_reachable s -> 0 <= fade_level s <= 1.
Proof.
  induction 1 as [|s p v t fo fi _ IH]; simpl; [lra|].
  unfold calculate_motion_amplitude.
  destruct Rle_dec; simpl; apply next_fade_level_bounds; exact IH.
Qed.

Lemma calculate_motion_amplitude_state s p v t fo fi :
  snd (calculate_motion_amplitude s p v t fo fi) =
  mkFade (next_fade_level (movement_detected v) (fade_level s)
            (fade_time_delta s t) fo fi) (Some t) (movement_detected v).
Proof.
  unfold calculate_motion_amplitude; destruct Rle_dec; reflexivity.
Qed.

Lemma movement_detected_true v : 0.01 < Rabs v -> movement_detected v = true.
Proof. intros H; unfold movement_detected; destruct Rlt_dec; [reflexivity|lra]. Qed.

Lemma movement_detected_false v : Rabs v <= 0.01 -> movement_detected v = false.
Proof. intros H; unfold movement_detected; destruct Rlt_dec; [lra|reflexivity]. Qed.

(** ** C1: the fade transition rule *)

(** C1 (counterexample).  On the first call ([dt = 0]) with movement and
    [fade_in_time = 1 > 0] the code jumps to full level: the fade level
    becomes [1], not [min(1, 0 + 0/1) = 0], and it changes by [1] although
    [dt * (1/fade_in_time) = 0]. *)
Lemma fade_first_moving_call_jumps :
  let s' := snd (calculate_motion_amplitude fade_init 0.5 1 0 1 1) in
  fade_level s' = 1 /\
  fade_level s' <> Rmin 1 (fade_level fade_init + fade_time_delta fade_init 0 / 1) /\
  Rabs (fade_level s' - fade_level fade_init) > fade_time_delta fade_init 0 * (1 / 1).
Proof.
  cbv zeta; rewrite calculate_motion_amplitude_state.
  rewrite movement_detected_true by (rewrite Rabs_R1; lra).
  unfold next_fade_level, fade_time_delta, fade_init; simpl.
  destruct (Rlt_dec 0 1); [|lra]; destruct (Rlt_dec 0 0); [lra|].
  unfold Rmin; destruct Rle_dec; rewrite ?Rminus_0_r, ?Rabs_R1; repeat split; lra.
Qed.

(** C1 (amended).  Let [dt] be the time since the previous call ([0] on the
    first call).  When moving ([|v| > 0.01]) the fade level becomes
    [min(1, fade + dt/fade_in_time)] if [fade_in_time > 0] and [dt > 0], and
    jumps to [1] otherwise (also on the first call and whenever [dt <= 0]);
    when not moving it becomes [max(0, fade - dt/fade_out_time)] if
    [fade_out_time > 0] and [dt > 0], and jumps to [0] otherwise.  The level
    stays in [[0,1]] in every reachable state, and on a gradual step it
    moves by at most [dt/fade_in_time] (resp. [dt/fade_out_time]). *)
Theorem fade_transition_rule s p v t fo fi :
  fade_reachable s ->
  let dt := fade_time_delta s t in
  let f := fade_level s in
  let f' := fade_level (snd (calculate_motion_amplitude s p v t fo fi)) in
  (last_fade_time s = None -> dt = 0) /\
  (0.01 < Rabs v -> 0 < fi -> 0 < dt ->
     f' = Rmin 1 (f + dt / fi) /\ 0 <= f' - f <= dt / fi) /\
  (0.01 < Rabs v -> fi <= 0 \/ dt <= 0 -> f' = 1) /\
  (Rabs v <= 0.01 -> 0 < fo -> 0 < dt ->
     f' = Rmax 0 (f - dt / fo) /\ 0 <= f - f' <= dt / fo) /\
  (Rabs v <= 0.01 -> fo <= 0 \/ dt <= 0 -> f' = 0) /\
  0 <= f' <= 1.
Proof.
  intros Hr dt f f'.
  pose proof (fade_reachable_bounds s Hr) as Hf.
  assert (Hf' : 0 <= f' <= 1).
  { unfold f'; rewrite calculate_motion_amplitude_state; simpl.
    apply next_fade_level_bounds; exact Hf. }
  unfold f' in *; rewrite calculate_motion_amplitude_state in *; simpl in *.
  fold dt f in Hf' |- *. change (fade_level s) with f in Hf.
  split; [unfold dt, fade_time_delta; intros ->; reflexivity|].
  split.
  { intros Hv Hfi Hdt; rewrite movement_detected_true in * by exact Hv.
    unfold next_fade_level in *; destruct Rlt_dec; [|lra]; destruct Rlt_dec; [|lra].
    assert (0 <= dt / fi) by (apply Rlt_le, Rdiv_lt_0_compat; lra).
    replace (1 / fi * dt) with (dt / fi) by (unfold Rdiv; ring).
    split; [reflexivity|]; unfold Rmin; destruct Rle_dec; lra. }
  split.
  { intros Hv Hc; rewrite movement_detected_true by exact Hv.
    unfold next_fade_level; destruct Rlt_dec; [destruct Rlt_dec|]; lra. }
  split.
  { intros Hv Hfo Hdt; rewrite movement_detected_false in * by exact Hv.
    unfold next_fade_level in *; destruct Rlt_dec; [|lra]; destruct Rlt_dec; [|lra].
    assert (0 <= dt / fo) by (apply Rlt_le, Rdiv_lt_0_compat; lra).
    replace (1 / fo * dt) with (dt / fo) by (unfold Rdiv; ring).
    split; [reflexivity|]; unfold Rmax; destruct Rle_dec; lra. }
  split; [|exact Hf'].
  intros Hv Hc; rewrite movement_detected_false by exact Hv.
  unfold next_fade_level; destruct Rlt_dec; [destruct Rlt_dec|]; lra.
Qed.

(** ** C3: the positional split *)

(** C3.  For [p] in [[0,1]], [_apply_positional_effect] returns
    [amplitude * sqrt(1-p)] and [amplitude * sqrt(p)]; the squares add up to
    [amplitude^2]; [p = 0] gives [(amplitude, 0)], [p = 1] gives
    [(0, amplitude)] and [p = 0.5] gives equal channel amplitudes. *)
Theorem positional_split_constant_power amplitude p :
  0 <= p <= 1 ->
  let r := apply_positional_effect amplitude p in
  fst r = amplitude * sqrt (1 - p) /\
  snd r = amplitude * sqrt p /\
  fst r ^ 2 + snd r ^ 2 = amplitude ^ 2 /\
  (p = 0 -> fst r = amplitude /\ snd r = 0) /\
  (p = 1 -> fst r = 0 /\ snd r = amplitude) /\
  (p = 0.5 -> fst r = snd r).
Proof.
  intros Hp r; unfold r, apply_positional_effect; simpl.
  replace (0.5 * (1 - 1) + p * 1) with p by ring.
  split; [reflexivity|]. split; [reflexivity|].
  split.
  { pose proof (sqrt_sqrt (1 - p)) as Ha; pose proof (sqrt_sqrt p) as Hb.
    nra. }
  split.
  { intros ->; rewrite Rminus_0_r, sqrt_1, sqrt_0; split; ring. }
  split.
  { intros ->; rewrite Rminus_diag, sqrt_1, sqrt_0; split; ring. }
  intros ->; replace (1 - 0.5) with 0.5 by lra; reflexivity.
Qed.

(** ** C4: the amplitude formula *)

Lemma distance_from_center_bound p :
  0 <= p <= 1 -> 0 <= Rabs (p - 0.5) * 2 <= 1.
Proof.
  intros Hp; unfold Rabs; destruct Rcase_abs; lra.
Qed.

(** C4.  For a reachable fade state and [p] in [[0,1]]: when the updated
    fade level is [<= 0] the amplitude is [0], otherwise it is
    [clamp((0.6 + |p - 0.5| * 2 * 0.3) * fade_level, 0, 1)]; the amplitude
    lies in [[0, 0.9]] and equals [0.9] only for [p = 0] or [p = 1] with
    fade level [1]. *)
Theorem motion_amplitude_formula s p v t fo fi :
  fade_reachable s -> 0 <= p <= 1 ->
  let r := calculate_motion_amplitude s p v t fo fi in
  let lvl := fade_level (snd r) in
  (lvl <= 0 -> fst r = 0) /\
  (0 < lvl -> fst r = clamp ((0.6 + Rabs (p - 0.5) * 2 * 0.3) * lvl) 0 1) /\
  0 <= fst r <= 0.9 /\
  (fst r = 0.9 -> (p = 0 \/ p = 1) /\ lvl = 1).
Proof.
  intros Hr Hp r lvl.
  assert (Hl : 0 <= lvl <= 1)
    by (apply fade_reachable_bounds; constructor; exact Hr).
  pose proof (distance_from_center_bound p Hp) as Hd.
  unfold lvl, r in *; clear lvl r.
  rewrite calculate_motion_amplitude_state in Hl |- *; simpl in Hl |- *.
  unfold calculate_motion_amplitude.
  set (l := next_fade_level (movement_detected v) (fade_level s)
              (fade_time_delta s t) fo fi) in *.
  set (d := Rabs (p - 0.5) * 2) in *.
  destruct (Rle_dec l 0) as [Hle|Hgt]; simpl.
  - repeat split; intros; lra.
  - assert (Hin : 0 <= (0.6 + d * 0.3) * l <= 0.9) by nra.
    rewrite (clamp_inside _ 0 1) by lra.
    split; [lra|]. split; [reflexivity|]. split; [lra|].
    intros Heq.
    assert (Hl1 : l = 1) by nra.
    assert (Hd1 : d = 1) by (subst l; nra).
    split; [|exact Hl1].
    unfold d in Hd1; revert Hd1; unfold Rabs; destruct Rcase_abs; intros; lra.
Qed.

(** ** Scheduling of the next packet *)

Lemma min_duration_ms_eq a b :
  min_duration_ms a b =
  (if (0 <? Z.min a b)%Z then Z.min a b else Z.max (Z.max a b) 1)%Z /\
  (1 <= min_duration_ms a b)%Z.
Proof.
  unfold min_duration_ms.
  destruct (Z.ltb_spec 0 (Z.min a b)); split; lia.
Qed.

(** The schedule [generate_packet] sets for an arbitrary packet: with [a]
    and [b] the summed pulse durations (ms) of channels A and B, the next
    poll comes [0.65 * m / 1000] seconds after [current_time], where
    [m = min(a, b)] when both are positive and [m = max(a, b, 1)] otherwise;
    the interval is always strictly positive. *)
Lemma next_update_schedule current_time pk :
  let a := channel_duration (channel_a pk) in
  let b := channel_duration (channel_b pk) in
  let dt := next_update_time current_time pk - current_time in
  dt = 0.65 * IZR (if (0 <? Z.min a b)%Z then Z.min a b
                   else Z.max (Z.max a b) 1) / 1000 /\
  0 < dt /\
  ((0 < a)%Z -> (0 < b)%Z -> dt = 0.65 * IZR (Z.min a b) / 1000) /\
  (a = 0%Z -> (0 < b)%Z -> dt = 0.65 * IZR b / 1000) /\
  ((0 < a)%Z -> b = 0%Z -> dt = 0.65 * IZR a / 1000) /\
  (a = 0%Z -> b = 0%Z -> dt = 0.65 / 1000).
Proof.
  intros a b dt.
  destruct (min_duration_ms_eq a b) as [Heq Hge].
  assert (Hdt : dt = 0.65 * IZR (min_duration_ms a b) / 1000)
    by (unfold dt, next_update_time; fold a b; lra).
  apply IZR_le in Hge.
  split; [rewrite Hdt, Heq; reflexivity|].
  split; [rewrite Hdt; lra|].
  rewrite Hdt, Heq.
  split; [intros; destruct (Z.ltb_spec 0 (Z.min a b)); [reflexivity|lia]|].
  split; [intros -> Hb; destruct (Z.ltb_spec 0 (Z.min 0 b)); [lia|];
          f_equal; f_equal; f_equal; lia|].
  split; [intros Ha ->; destruct (Z.ltb_spec 0 (Z.min a 0)); [lia|];
          f_equal; f_equal; f_equal; lia|].
  intros Ha Hb; rewrite Ha, Hb.
  replace (if (0 <? Z.min 0 0)%Z then Z.min 0 0 else Z.max (Z.max 0 0) 1)
    with 1%Z by reflexivity; lra.
Qed.

(** ** C6: the dynamic volume *)

(** C6.  [_calculate_dynamic_volume] returns
    [1 - sensitivity * (1 - (base_volume + (1 - base_volume) * intensity))]
    where [intensity = mix * normalized_velocity + (1 - mix) *
    normalized_stroke_rate]; sensitivity [0] gives [1]; sensitivity [1],
    base volume [0.2] and intensity [0] give [0.2]; and with the feature
    disabled [get_pulses_at_time] sets the current dynamic volume to [1]
    whatever the history. *)
Theorem dynamic_volume_formula st cfg max_speed max_stroke_rate v t :
  let vol := fst (calculate_dynamic_volume st cfg max_speed max_stroke_rate v t) in
  let i := dynamic_intensity_metric st cfg max_speed max_stroke_rate v t in
  let s := dynamic_sensitivity cfg in
  let bv := base_volume cfg in
  vol = 1 - s * (1 - (bv + (1 - bv) * i)) /\
  (s = 0 -> vol = 1) /\
  (s = 1 -> bv = 0.2 -> i = 0 -> vol = 0.2) /\
  fst (update_dynamic_volume false st cfg max_speed max_stroke_rate v t) = 1.
Proof.
  intros vol i s bv.
  assert (Hvol : vol = 1 - s * (1 - (bv + (1 - bv) * i))) by reflexivity.
  split; [exact Hvol|].
  split; [intros Hs; rewrite Hvol, Hs; ring|].
  split; [intros Hs Hb Hi; rewrite Hvol, Hs, Hb, Hi; lra|].
  reflexivity.
Qed.

(** ** C8: stroke classification at calibration time and run time *)

Lemma stroke_flip_spec l b :
  stroke_flip l b = true <-> (b <> 0 /\ l <> 0 /\ b <> l)%Z.
Proof.
  unfold stroke_flip.
  rewrite !andb_true_iff, !negb_true_iff, !Z.eqb_neq; tauto.
Qed.

(** C8.  Both places classify a velocity identically ([+1] above [0.01],
    [-1] below [-0.01], [0] otherwise); a neutral sample leaves the stored
    last sign unchanged; and both record a stroke exactly when the current
    sign and the stored last sign are non-neutral and differ (at run time
    the stroke time is appended before the window pruning). *)
Theorem stroke_classification_consistent :
  (forall v, calib_velocity_sign v = dyn_velocity_sign v) /\
  (forall v,
     (0.01 < v -> dyn_velocity_sign v = 1%Z) /\
     (v < -0.01 -> dyn_velocity_sign v = (-1)%Z) /\
     (-0.01 <= v <= 0.01 -> dyn_velocity_sign v = 0%Z)) /\
  (forall st cfg max_speed max_stroke_rate v t,
     let st' := snd (calculate_dynamic_volume st cfg max_speed max_stroke_rate v t) in
     let cs := dyn_velocity_sign v in
     last_velocity_sign st' =
       (if (cs =? 0)%Z then last_velocity_sign st else cs) /\
     direction_change_times st' =
       filter (fun x => if Rle_dec (t - dynamic_window_size cfg) x then true else false)
         (direction_change_times st ++
          if stroke_flip (last_velocity_sign st) cs then [t] else [])) /\
  (forall vel rest direction_changes last_sign,
     let cs := calib_velocity_sign vel in
     count_direction_changes_loop (vel :: rest) direction_changes last_sign =
     count_direction_changes_loop rest
       (if stroke_flip last_sign cs then S direction_changes else direction_changes)
       (if (cs =? 0)%Z then last_sign else cs)) /\
  (forall last_sign cs,
     stroke_flip last_sign cs = true <-> (cs <> 0 /\ last_sign <> 0 /\ cs <> last_sign)%Z).
Proof.
  split; [reflexivity|].
  split.
  { intros v; unfold dyn_velocity_sign.
    split; [intros H; destruct Rlt_dec; [reflexivity|lra]|].
    split; [intros H; destruct Rlt_dec; [lra|]; destruct Rlt_dec; [reflexivity|lra]|].
    intros H; destruct Rlt_dec; [lra|]; destruct Rlt_dec; [lra|reflexivity]. }
  split.
  { intros st cfg ms msr v t st' cs; unfold st', calculate_dynamic_volume; simpl.
    fold cs. unfold stroke_flip.
    split; [destruct (cs =? 0)%Z; reflexivity|].
    destruct (negb (cs =? 0)%Z && _ && _); [reflexivity|rewrite app_nil_r; reflexivity]. }
  split.
  { intros vel rest dc ls cs; simpl; fold cs; unfold stroke_flip.
    destruct (cs =? 0)%Z; reflexivity. }
  exact stroke_flip_spec.
Qed.

(** ** C10: the velocity history is never empty when averaged *)

(** C10.  With [window_size >= 0], after [_calculate_dynamic_volume] the
    pruned velocity history contains the current sample, so it is non-empty:
    the averaging takes the [len(...) > 0] branch and divides by at least
    [1]. *)
Theorem dynamic_history_nonempty st cfg max_speed max_stroke_rate v t :
  0 <= dynamic_window_size cfg ->
  let st' := snd (calculate_dynamic_volume st cfg max_speed max_stroke_rate v t) in
  In (t, v) (dynamic_velocity_history st') /\
  (0 <? List.length (dynamic_velocity_history st'))%nat = true.
Proof.
  intros Hw st'.
  assert (Hin : In (t, v) (dynamic_velocity_history st')).
  { unfold st', calculate_dynamic_volume; simpl.
    apply filter_In; split.
    - apply in_or_app; right; left; reflexivity.
    - simpl; destruct Rle_dec; [reflexivity|lra]. }
  split; [exact Hin|].
  destruct (dynamic_velocity_history st'); [contradiction|reflexivity].
Qed.

(** ** C5: frequencies stay within the channel bounds *)

Example select_position : select_frequency_branch "Position Based" = BPosition.
Proof. reflexivity. Qed.

(** The display name "Blend (Position + Noise)" contains "NOISE", so the
    [elif] chain selects the varied branch before the blend branch. *)
Example select_blend_display_name :
  select_frequency_branch "Blend (Position + Noise)" = BVaried.
Proof. reflexivity. Qed.

Example select_blend : select_frequency_branch "BLEND" = BBlend.
Proof. reflexivity. Qed.

Example select_throb : select_frequency_branch "throbbing" = BThrob.
Proof. reflexivity. Qed.

Example select_unknown : select_frequency_branch "sawtooth" = BFixed.
Proof. reflexivity. Qed.

Example select_empty : select_frequency_branch "" = BFixed.
Proof. reflexivity. Qed.

(** C5.  Whatever the algorithm setting (any string, recognised or not),
    position, time, thresholds, throbbing intensity, velocity factor and
    window-average velocity, when [min_freq <= max_freq] the returned
    frequency lies in [[min_freq, max_freq]]. *)
Theorem enhanced_frequency_within_bounds cfg freq_algorithm min_freq max_freq
    avg_velocity max_speed position time :
  min_freq <= max_freq ->
  min_freq <= calculate_enhanced_frequency cfg freq_algorithm min_freq max_freq
                 avg_velocity max_speed position time <= max_freq.
Proof.
  intros H; unfold calculate_enhanced_frequency; apply clamp_bounds; exact H.
Qed.

(** ** C7: calibration floors *)

Lemma recalibrate_effect np st timeframe st' :
  recalibrate_velocity_range np st timeframe st' ->
  0.5 <= calibrated_max_speed st' /\
  calibrated_max_magnitude st' = calibrated_max_magnitude st /\
  calibrated_max_stroke_rate st' = calibrated_max_stroke_rate st /\
  position_data st' = position_data st.
Proof.
  destruct 1 as [Hlen|wa Hlen times time_span cw Hscan ms]; simpl.
  - repeat split; lra.
  - repeat split; try reflexivity.
    unfold ms; destruct (0 <? List.length wa)%nat; [apply Rmax_r|lra].
Qed.

Lemma calibrated_stroke_rate_floor times velocities :
  1 <= calibrated_stroke_rate times velocities.
Proof. unfold calibrated_stroke_rate; apply Rmax_r. Qed.

Lemma precompute_floors np st script timeframe st' :
  calibration_floors_hold st ->
  precompute_motion_data np st script timeframe st' ->
  calibration_floors_hold st'.
Proof.
  intros Hst Hpre; destruct Hpre as
    [tf|times positions tf Hshort|times positions tf st1 Hp Ht vel acc st0 Hrec];
    try exact Hst.
  destruct (recalibrate_effect _ _ _ _ Hrec) as (Hms & Hmm & _ & _).
  unfold calibration_floors_hold; simpl.
  split; [exact Hms|]. split; [|apply calibrated_stroke_rate_floor].
  rewrite Hmm; unfold st0; simpl; apply Rmax_r.
Qed.

Lemma map_fst_combine (xs : list R) (ys : list R) :
  List.length xs = List.length ys -> map fst (combine xs ys) = xs.
Proof.
  revert ys; induction xs as [|x xs IH]; intros [|y ys] H; simpl in *;
    try discriminate; [reflexivity|].
  f_equal; apply IH; congruence.
Qed.

(** C7.  In every state reachable by construction, later profile loads and
    recalibrations (also for a script with fewer than 2 samples, or with no
    timeline, and for a flat script) the calibration constants satisfy
    [max_speed >= 0.5], [max_magnitude >= 5] and [max_stroke_rate >= 1];
    and loading a script with at least 2 samples and increasing times sets
    [max_stroke_rate = max(1.5 * direction_changes / time_span, 1)]. *)
Theorem calibration_floors np st :
  engine_reachable np st ->
  calibration_floors_hold st /\
  (forall st0 times positions timeframe st',
     List.length times = List.length positions ->
     (2 <= List.length times)%nat ->
     hd 0 times < last times 0 ->
     precompute_motion_data np st0 (Some (times, positions)) timeframe st' ->
     calibrated_max_stroke_rate st' =
     Rmax (1.5 * INR (count_direction_changes (np_gradient np positions times))
           / (last times 0 - hd 0 times)) 1).
Proof.
  intros Hr; split.
  - induction Hr as [script tf st Hpre|st script tf st' _ IH Hpre|st tf st' _ IH Hrec].
    + apply (precompute_floors np engine_init script tf); [|exact Hpre].
      unfold calibration_floors_hold; simpl; lra.
    + exact (precompute_floors np st script tf st' IH Hpre).
    + destruct (recalibrate_effect _ _ _ _ Hrec) as (Hms & Hmm & Hmsr & _).
      destruct IH as (_ & H2 & H3).
      unfold calibration_floors_hold; rewrite Hmm, Hmsr; repeat split; assumption.
  - intros st0 times positions tf st' Hlen H2 Hinc Hpre.
    inversion Hpre as [|? ? ? Hshort|? ? ? st1 Hp Ht vel acc s0 Hrec]; subst.
    + lia.
    + simpl.
      destruct (recalibrate_effect _ _ _ _ Hrec) as (_ & _ & _ & Hpd).
      unfold calibrated_stroke_rate, profile_times.
      rewrite Hpd; simpl; rewrite map_fst_combine by exact Hlen.
      unfold time_span_of.
      destruct (Nat.ltb_spec 1 (List.length times)); [|lia].
      destruct Rlt_dec; [|lra].
      f_equal; unfold vel, Rdiv; ring.
Qed.

(** ** Packets of [_generate_motion_pulses] *)

Lemma py_int_within (x : R) (lo hi : Z) :
  IZR lo <= x <= IZR hi -> (lo <= py_int x <= hi)%Z.
Proof.
  intros Hx; unfold py_int.
  destruct (base_Int_part x) as [H1 H2].
  destruct Rle_dec as [Hpos|Hneg].
  - split.
    + assert (IZR lo - 1 < IZR (Int_part x)) by lra.
      rewrite <- minus_IZR in H; apply lt_IZR in H; lia.
    + apply le_IZR; lra.
  - destruct (base_Int_part (- x)) as [H3 H4].
    split.
    + apply le_IZR; rewrite opp_IZR; lra.
    + assert (- IZR hi - 1 < IZR (Int_part (- x))) by lra.
      rewrite <- opp_IZR, <- minus_IZR in H; apply lt_IZR in H; lia.
Qed.

(** Every packet has 4 identical pulses per channel, intensities in
    [[0, 100]] and, for whole-number duration bounds, durations
    [int(clamp(1000/freq, MIN, MAX))] within those bounds. *)
Lemma generate_motion_pulses_shape hwmin hwmax (dmin dmax : Z) fa fb ia ib :
  (dmin <= dmax)%Z ->
  let pk := generate_motion_pulses hwmin hwmax (IZR dmin) (IZR dmax) fa fb ia ib in
  List.length (channel_a pk) = 4%nat /\ List.length (channel_b pk) = 4%nat /\
  (forall p, In p (channel_a pk) \/ In p (channel_b pk) ->
     (0 <= intensity p <= 100)%Z /\ (dmin <= duration p <= dmax)%Z) /\
  (forall p, In p (channel_a pk) ->
     duration p = py_int (clamp (1000 / clamp fa hwmin hwmax) (IZR dmin) (IZR dmax))).
Proof.
  intros Hd pk.
  assert (Hdr : IZR dmin <= IZR dmax) by (apply IZR_le; exact Hd).
  split; [reflexivity|]. split; [reflexivity|].
  split.
  - intros p Hp; unfold pk, generate_motion_pulses in Hp.
    cbn [channel_a channel_b] in Hp.
    destruct Hp as [Hp|Hp]; apply repeat_spec in Hp; subst p;
      cbn [intensity duration];
      (split; [apply py_int_within; apply clamp_bounds; lra|
               apply py_int_within; apply clamp_bounds; exact Hdr]).
  - intros p Hp; unfold pk, generate_motion_pulses in Hp.
    cbn [channel_a] in Hp; apply repeat_spec in Hp; subst p; reflexivity.
Qed.

(** ** Witnesses: the theorems applied at concrete inputs *)

Lemma fade_transition_rule_witness :
  fade_reachable fade_init /\
  0 <= fade_level (snd (calculate_motion_amplitude fade_init 0.5 1 0 1 1)) <= 1.
Proof.
  split; [exact fade_reach_init|].
  pose proof (fade_transition_rule fade_init 0.5 1 0 1 1 fade_reach_init) as H.
  cbv zeta in H; destruct H as (_ & _ & _ & _ & _ & H); exact H.
Defined.

Lemma positional_split_witness :
  0 <= 0.5 <= 1 /\
  fst (apply_positional_effect 0.8 0.5) = snd (apply_positional_effect 0.8 0.5).
Proof.
  assert (Hp : 0 <= 0.5 <= 1) by lra.
  split; [exact Hp|].
  pose proof (positional_split_constant_power 0.8 0.5 Hp) as H.
  cbv zeta in H; destruct H as (_ & _ & _ & _ & _ & H); exact (H eq_refl).
Defined.

Lemma motion_amplitude_formula_witness :
  fade_reachable fade_init /\ 0 <= 1 <= 1 /\
  0 <= fst (calculate_motion_amplitude fade_init 1 1 0 1 1) <= 0.9.
Proof.
  assert (Hp : 0 <= 1 <= 1) by lra.
  split; [exact fade_reach_init|]. split; [exact Hp|].
  pose proof (motion_amplitude_formula fade_init 1 1 0 1 1 fade_reach_init Hp) as H.
  cbv zeta in H; destruct H as (_ & _ & H & _); exact H.
Defined.

Lemma enhanced_frequency_within_bounds_witness :
  70 <= 100 /\
  70 <= calculate_enhanced_frequency freq_settings_example "POSITION" 70 100 1 5 0.5 0
     <= 100.
Proof.
  assert (H : 70 <= 100) by lra.
  split; [exact H|].
  exact (enhanced_frequency_within_bounds freq_settings_example "POSITION" 70 100 1 5 0.5 0 H).
Defined.

Lemma calibration_floors_witness :
  engine_reachable numpy_example (default_profile engine_init) /\
  calibration_floors_hold (default_profile engine_init).
Proof.
  assert (Hr : engine_reachable numpy_example (default_profile engine_init))
    by (apply (reach_construct _ None 1); constructor).
  split; [exact Hr|].
  exact (proj1 (calibration_floors numpy_example _ Hr)).
Defined.

Lemma dynamic_history_nonempty_witness :
  0 <= dynamic_window_size dyn_settings_example /\
  In (1, 0.3) (dynamic_velocity_history
                 (snd (calculate_dynamic_volume dyn_init dyn_settings_example 5 2 0.3 1))).
Proof.
  assert (Hw : 0 <= dynamic_window_size dyn_settings_example) by (simpl; lra).
  split; [exact Hw|].
  exact (proj1 (dynamic_history_nonempty dyn_init dyn_settings_example 5 2 0.3 1 Hw)).
Defined.

(** ** Further properties of the code *)

(** *** Dynamic volume *)

Lemma dynamic_volume_bounds enabled st cfg max_speed max_stroke_rate v t :
  0 <= dynamic_sensitivity cfg <= 1 ->
  0 <= dynamic_mix_ratio cfg <= 1 ->
  base_volume cfg <= 1 ->
  base_volume cfg <= fst (update_dynamic_volume enabled st cfg max_speed max_stroke_rate v t) <= 1.
Proof.
  intros Hs Hm Hb; unfold update_dynamic_volume.
  destruct enabled; [|simpl; lra].
  unfold calculate_dynamic_volume; cbv zeta; cbn [fst].
  set (s := dynamic_sensitivity cfg) in *; set (m := dynamic_mix_ratio cfg) in *;
  set (b := base_volume cfg) in *; clearbody s m b.
  clamp01_bounds.
  assert (0 <= m * c + (1 - m) * c0 <= 1) by nra.
  set (i := m * c + (1 - m) * c0) in *.
  assert (b <= b + (1 - b) * i <= 1) by nra.
  nra.
Qed.

(** X1.  With sensitivity and mix ratio in [[0,1]] and [base_volume <= 1],
    the value [get_pulses_at_time] stores in [current_dynamic_volume]
    (dynamic volume enabled or not) lies in [[base_volume, 1]]. *)
Theorem dynamic_volume_range enabled st cfg max_speed max_stroke_rate v t :
  0 <= dynamic_sensitivity cfg <= 1 ->
  0 <= dynamic_mix_ratio cfg <= 1 ->
  base_volume cfg <= 1 ->
  base_volume cfg <= fst (update_dynamic_volume enabled st cfg max_speed max_stroke_rate v t) <= 1.
Proof. exact (dynamic_volume_bounds enabled st cfg max_speed max_stroke_rate v t). Qed.

(** X2.  After a call of [_calculate_dynamic_volume] at [current_time]
    every kept history sample and every kept direction-change time is at
    least [current_time - window_size]; the kept samples come from the old
    history or are the new sample, and the kept change times from the old
    list or are [current_time]. *)
Theorem dynamic_window_pruned st cfg max_speed max_stroke_rate v t :
  let st' := snd (calculate_dynamic_volume st cfg max_speed max_stroke_rate v t) in
  (forall tv, In tv (dynamic_velocity_history st') ->
     t - dynamic_window_size cfg <= fst tv /\
     (In tv (dynamic_velocity_history st) \/ tv = (t, v))) /\
  (forall c, In c (direction_change_times st') ->
     t - dynamic_window_size cfg <= c /\
     (In c (direction_change_times st) \/ c = t)).
Proof.
  cbv zeta; unfold calculate_dynamic_volume; cbv zeta; cbn [snd
    dynamic_velocity_history direction_change_times].
  split.
  - intros tv Hin; apply filter_In in Hin as [Hin Hk].
    destruct Rle_dec as [Hle|]; [|discriminate].
    split; [exact Hle|].
    apply in_app_or in Hin as [Hin|[Hin|[]]]; [left; exact Hin|right; symmetry; exact Hin].
  - intros c Hin; apply filter_In in Hin as [Hin Hk].
    destruct Rle_dec as [Hle|]; [|discriminate].
    split; [exact Hle|].
    destruct (_ && _ && _);
      [apply in_app_or in Hin as [Hin|[Hin|[]]]; [left; exact Hin|right; symmetry; exact Hin]
      |left; exact Hin].
Qed.

(** *** Calibration-time stroke counting *)

Lemma count_direction_changes_loop_le vs dc ls :
  (fst (count_direction_changes_loop vs dc ls) <= dc + List.length vs)%nat.
Proof.
  revert dc ls; induction vs as [|v vs IH]; intros dc ls; simpl; [lia|].
  set (ls' := if negb (calib_velocity_sign v =? 0)%Z then calib_velocity_sign v else ls).
  destruct (_ && _ && _); [specialize (IH (S dc) ls')|specialize (IH dc ls')]; lia.
Qed.

(** X3.  The calibration's stroke count never exceeds the number of
    velocity samples minus one: the first sample cannot count a change. *)
Theorem direction_changes_le_samples vs :
  (count_direction_changes vs <= List.length vs - 1)%nat.
Proof.
  unfold count_direction_changes; destruct vs as [|v vs]; simpl; [lia|].
  rewrite andb_false_r; cbn [andb].
  pose proof (count_direction_changes_loop_le vs 0
    (if negb (calib_velocity_sign v =? 0)%Z then calib_velocity_sign v else 0%Z)).
  simpl in H; lia.
Qed.

(** *** [_check_recalibration_needed] *)

Lemma recalibrate_data np st timeframe st' :
  recalibrate_velocity_range np st timeframe st' ->
  last_calibration_timeframe st' = Some timeframe /\
  position_data st' = position_data st /\ velocity_data st' = velocity_data st.
Proof. destruct 1; simpl; auto. Qed.

Lemma check_recalibration_data np st timeframe st' :
  check_recalibration_needed np st timeframe st' ->
  last_calibration_timeframe st' = Some timeframe /\
  position_data st' = position_data st /\ velocity_data st' = velocity_data st.
Proof.
  destruct 1 as [H|st'' Hne Hrec]; [auto|exact (recalibrate_data _ _ _ _ Hrec)].
Qed.

(** X4.  After [_check_recalibration_needed] the cached timeframe is the
    current one and the motion data are untouched; a second check with an
    unchanged timeframe leaves the state as it is. *)
Theorem check_recalibration_idempotent np st timeframe st' :
  check_recalibration_needed np st timeframe st' ->
  last_calibration_timeframe st' = Some timeframe /\
  position_data st' = position_data st /\ velocity_data st' = velocity_data st /\
  (forall st'', check_recalibration_needed np st' timeframe st'' -> st'' = st').
Proof.
  intros H; destruct (check_recalibration_data _ _ _ _ H) as (H1 & H2 & H3).
  split; [exact H1|]. split; [exact H2|]. split; [exact H3|].
  intros st'' H'; destruct H' as [_|st3 Hne _]; [reflexivity|contradiction].
Qed.

(** *** Termination of the calibration scan *)

Lemma scan_windows_stuck vd cw t_end cur ws :
  scan_windows vd cw t_end cur ws -> cw <= 0 -> cur <= t_end -> False.
Proof.
  induction 1 as [cur Hlt|cur rest Hle _ IH]; intros Hcw Hc; [lra|].
  apply IH; [exact Hcw|lra].
Qed.

Lemma scan_windows_exists vd cw t_end :
  0 < cw -> forall cur, exists ws, scan_windows vd cw t_end cur ws.
Proof.
  intros Hcw.
  assert (Hn : forall n cur, t_end - cur < INR n * (cw / 2) ->
                 exists ws, scan_windows vd cw t_end cur ws).
  { induction n as [|n IH]; intros cur Hc.
    - exists []; apply scan_done; simpl in Hc; lra.
    - destruct (Rlt_dec t_end cur) as [Hlt|Hge].
      + exists []; apply scan_done; exact Hlt.
      + destruct (IH (cur + cw / 2)) as [rest Hrest].
        { rewrite S_INR in Hc; lra. }
        eexists; apply scan_next; [lra|exact Hrest]. }
  intros cur.
  destruct (INR_unbounded ((t_end - cur) / (cw / 2))) as [n Hn'].
  apply (Hn n cur).
  assert (Hc2 : 0 < cw / 2) by lra.
  apply (Rmult_lt_compat_r (cw / 2)) in Hn'; [|exact Hc2].
  assert (Heq : (t_end - cur) / (cw / 2) * (cw / 2) = t_end - cur) by (field; lra).
  lra.
Qed.

(** X5.  [_recalibrate_velocity_range] does not return when the timeframe
    setting is [<= 0] and the script has at least two velocity samples and a
    positive time span: the scan window is [<= 0] and the [while] loop never
    passes the last time. *)
Theorem recalibrate_hangs_nonpositive_timeframe np st timeframe :
  (2 <= List.length (velocity_data st))%nat ->
  0 < time_span_of (profile_times st) ->
  timeframe <= 0 ->
  ~ exists st', recalibrate_velocity_range np st timeframe st'.
Proof.
  intros Hlen Hspan Htf [st' Hrec].
  destruct Hrec as [Hshort|ws _ times time_span cw Hscan ms]; [lia|].
  apply (scan_windows_stuck _ _ _ _ _ Hscan).
  - unfold cw, time_span, times.
    destruct (Rlt_dec 0 (time_span_of (profile_times st))); [|lra].
    pose proof (Rmin_l timeframe (time_span_of (profile_times st) / 4)); lra.
  - unfold times in *; revert Hspan; unfold time_span_of.
    destruct (profile_times st) as [|x [|y l]]; simpl; intros; lra.
Qed.

(** X6.  With a positive timeframe setting [_recalibrate_velocity_range]
    always returns, whatever the profile. *)
Theorem recalibrate_terminates np st timeframe :
  0 < timeframe -> exists st', recalibrate_velocity_range np st timeframe st'.
Proof.
  intros Htf.
  destruct (Nat.lt_ge_cases (List.length (velocity_data st)) 2) as [Hs|Hl].
  - eexists; apply recal_short; exact Hs.
  - set (cw := if Rlt_dec 0 (time_span_of (profile_times st))
               then Rmin timeframe (time_span_of (profile_times st) / 4) else 5).
    assert (Hcw : 0 < cw).
    { unfold cw; destruct Rlt_dec; [|lra].
      unfold Rmin; destruct Rle_dec; lra. }
    destruct (scan_windows_exists (velocity_data st) cw (last (profile_times st) 0) Hcw
                (hd 0 (profile_times st))) as [ws Hws].
    eexists; eapply recal_scan; [exact Hl|exact Hws].
Qed.

(** *** [_get_average_velocity_in_window] *)

Lemma max_abs_velocity_ge vd tv :
  In tv vd -> Rabs (snd tv) <= max_abs_velocity vd.
Proof.
  induction vd as [|x vd IH]; simpl; [intros []|].
  intros [->|Hin]; [apply Rmax_l|].
  eapply Rle_trans; [exact (IH Hin)|apply Rmax_r].
Qed.

Lemma Rsum_bounds (l : list R) (M : R) :
  (forall x, In x l -> 0 <= x <= M) ->
  0 <= Rsum l <= INR (List.length l) * M.
Proof.
  induction l as [|x l IH]; intros Hl; [simpl; lra|].
  change (Rsum (x :: l)) with (x + Rsum l).
  change (List.length (x :: l)) with (S (List.length l)).
  destruct (Hl x (or_introl eq_refl)) as [H1 H2].
  destruct IH as [H3 H4]; [intros y Hy; apply Hl; right; exact Hy|].
  rewrite S_INR; lra.
Qed.

Lemma Rsum_mean_bounds (l : list R) (M : R) :
  (0 < List.length l)%nat ->
  (forall x, In x l -> 0 <= x <= M) ->
  0 <= Rsum l / INR (List.length l) <= M.
Proof.
  intros Hn Hl; destruct (Rsum_bounds l M Hl) as [H1 H2].
  assert (Hp : 0 < INR (List.length l)) by (apply lt_0_INR; exact Hn).
  split.
  - apply Rmult_le_pos; [exact H1|apply Rlt_le, Rinv_0_lt_compat, Hp].
  - apply (Rmult_le_reg_r (INR (List.length l))); [exact Hp|].
    unfold Rdiv; rewrite Rmult_assoc, Rinv_l by lra; lra.
Qed.

Lemma average_velocity_in_window_bounds vd video_time timeframe :
  0 <= average_velocity_in_window vd video_time timeframe <= max_abs_velocity vd.
Proof.
  unfold average_velocity_in_window; cbv zeta.
  assert (Hm : 0 <= max_abs_velocity vd)
    by (destruct vd; simpl; [lra|apply Rle_trans with (Rabs (snd p));
          [apply Rabs_pos|apply Rmax_l]]).
  match goal with |- context [(0 <? ?n)%nat] =>
    destruct (Nat.ltb_spec 0 n) as [Hn|Hn]; [|lra] end.
  apply Rsum_mean_bounds; [exact Hn|].
  intros x Hx; apply in_map_iff in Hx as (tv & <- & Hin).
  apply filter_In in Hin as [Hin _].
  split; [apply Rabs_pos|apply max_abs_velocity_ge; exact Hin].
Qed.

(** X7.  The average velocity [_get_average_velocity_in_window] returns
    lies between [0] and the largest [|v|] of the loaded velocity data,
    whatever the timestamp mapper returns. *)
Theorem average_velocity_bounded np st mapped timeframe current_time st' avg :
  get_average_velocity_in_window np st mapped timeframe current_time st' avg ->
  0 <= avg <= max_abs_velocity (velocity_data st).
Proof.
  destruct 1 as [st' Hchk].
  destruct (check_recalibration_data _ _ _ _ Hchk) as (_ & _ & Hvd).
  rewrite <- Hvd; apply average_velocity_in_window_bounds.
Qed.

(** X8.  The window average is [0] when no sample of the velocity data
    falls in [[video_time - timeframe/2, video_time + timeframe/2]]. *)
Theorem average_velocity_empty_window np st mapped timeframe current_time st' avg :
  get_average_velocity_in_window np st mapped timeframe current_time st' avg ->
  (forall tv, In tv (velocity_data st) ->
     fst tv < map_video_time mapped current_time - timeframe / 2 \/
     map_video_time mapped current_time + timeframe / 2 < fst tv) ->
  avg = 0.
Proof.
  destruct 1 as [st' Hchk]; intros Hout.
  destruct (check_recalibration_data _ _ _ _ Hchk) as (_ & _ & Hvd).
  unfold average_velocity_in_window; cbv zeta; rewrite Hvd.
  set (vt := map_video_time mapped current_time) in *.
  replace (filter _ (velocity_data st)) with (@nil (R * R)); [reflexivity|].
  revert Hout; generalize (velocity_data st) as vd.
  induction vd as [|tv vd IH]; intros Hout; [reflexivity|]; simpl.
  destruct (Hout tv (or_introl eq_refl));
    repeat destruct Rle_dec; try lra;
    apply IH; intros x Hx; apply Hout; right; exact Hx.
Qed.

(** *** Special cases of [_calculate_enhanced_frequency] *)

Lemma clamp_mono x y lo hi : x <= y -> clamp x lo hi <= clamp y lo hi.
Proof. intros H; unfold clamp, Rmax, Rmin; repeat destruct Rle_dec; lra. Qed.

(** X9.  With velocity factor [0] the velocity plays no part, for every
    algorithm name: the result does not depend on the average velocity or
    the calibrated max speed.  A name that selects the position branch gives
    [min + position * (max - min)] for a position in [[0,1]], and a name
    that selects none of the named branches (the fixed fallback) gives the
    midpoint [(min + max) / 2]. *)
Theorem frequency_factor_zero cfg freq_algorithm min_freq max_freq
    avg_velocity max_speed avg_velocity' max_speed' position time :
  frequency_velocity_factor cfg = 0 -> min_freq <= max_freq ->
  calculate_enhanced_frequency cfg freq_algorithm min_freq max_freq avg_velocity max_speed
    position time =
  calculate_enhanced_frequency cfg freq_algorithm min_freq max_freq avg_velocity' max_speed'
    position time /\
  (select_frequency_branch freq_algorithm = BPosition -> 0 <= position <= 1 ->
   calculate_enhanced_frequency cfg freq_algorithm min_freq max_freq avg_velocity max_speed
     position time = min_freq + position * (max_freq - min_freq)) /\
  (select_frequency_branch freq_algorithm = BFixed ->
   calculate_enhanced_frequency cfg freq_algorithm min_freq max_freq avg_velocity max_speed
     position time = (min_freq + max_freq) / 2).
Proof.
  intros Hf Hm; unfold calculate_enhanced_frequency; cbv zeta; rewrite Hf.
  rewrite !Rminus_0_r, !Rmult_1_r, !Rmult_0_r, !Rplus_0_r.
  split; [reflexivity|].
  split.
  - intros Hb Hp; rewrite Hb.
    unfold position_frequency; apply clamp_inside; nra.
  - intros Hb; rewrite Hb; apply clamp_inside; lra.
Qed.

(** X10.  With velocity factor [1] every algorithm gives the purely
    velocity-driven [min + clamp(avg_velocity / max_speed, 0, 1) * (max - min)]. *)
Theorem frequency_factor_one cfg freq_algorithm min_freq max_freq avg_velocity max_speed
    position time :
  frequency_velocity_factor cfg = 1 -> min_freq <= max_freq ->
  calculate_enhanced_frequency cfg freq_algorithm min_freq max_freq avg_velocity max_speed
    position time =
  min_freq + clamp (avg_velocity / max_speed) 0 1 * (max_freq - min_freq).
Proof.
  intros Hf Hm; unfold calculate_enhanced_frequency; cbv zeta; rewrite Hf.
  pose proof (clamp_bounds (avg_velocity / max_speed) 0 1 ltac:(lra)).
  rewrite Rminus_diag, Rmult_0_r, Rplus_0_l, Rmult_1_r.
  apply clamp_inside; nra.
Qed.

(** X11.  For the [POSITION] algorithm and a velocity factor in [[0,1]]
    the frequency does not decrease as the position rises. *)
Theorem position_frequency_monotone cfg min_freq max_freq avg_velocity max_speed time p1 p2 :
  0 <= frequency_velocity_factor cfg <= 1 -> min_freq <= max_freq -> p1 <= p2 ->
  calculate_enhanced_frequency cfg "POSITION" min_freq max_freq avg_velocity max_speed p1 time
  <= calculate_enhanced_frequency cfg "POSITION" min_freq max_freq avg_velocity max_speed p2 time.
Proof.
  intros Hf Hm Hp; unfold calculate_enhanced_frequency; cbv zeta.
  replace (select_frequency_branch "POSITION") with BPosition by reflexivity.
  apply clamp_mono; unfold position_frequency.
  assert (0 <= (p2 - p1) * (max_freq - min_freq)) by nra.
  nra.
Qed.

(** *** [has_funscript_data] *)

Lemma combine_length_min (xs ys : list R) :
  List.length (combine xs ys) = Nat.min (List.length xs) (List.length ys).
Proof. apply length_combine. Qed.

(** X12.  After [_precompute_motion_data], [has_funscript_data()] is true
    exactly when the script had a timeline with at least two times and two
    positions. *)
Theorem has_funscript_data_after_load np st script timeframe st' :
  (forall ys xs, List.length (np_gradient np ys xs) = List.length ys) ->
  precompute_motion_data np st script timeframe st' ->
  (has_funscript_data st' = true <->
   exists times positions, script = Some (times, positions) /\
     (2 <= List.length times)%nat /\ (2 <= List.length positions)%nat).
Proof.
  intros Hgrad.
  destruct 1 as [tf|times positions tf Hshort|times positions tf st1 Hp Ht vel acc st0 Hrec].
  - split; [discriminate|intros (? & ? & ? & _); discriminate].
  - split; [discriminate|].
    intros (ts & ps & Heq & H1 & H2); injection Heq as <- <-; lia.
  - destruct (recalibrate_data _ _ _ _ Hrec) as (_ & Hpd & Hvd).
    split; [intros _; exists times, positions; auto|intros _].
    unfold has_funscript_data; simpl; rewrite Hpd, Hvd; unfold st0; simpl.
    rewrite !combine_length_min; unfold vel; rewrite Hgrad.
    apply andb_true_intro; split; apply Nat.ltb_lt; lia.
Qed.

(** *** [get_pulses_at_time] *)

Lemma py_int_zero : py_int 0 = 0%Z.
Proof.
  unfold py_int; destruct Rle_dec as [_|H]; [|lra].
  unfold Int_part; rewrite <- (tech_up 0 1) by (simpl; lra); reflexivity.
Qed.

Lemma motion_amplitude_faded s p v t fo fi :
  fade_level (snd (calculate_motion_amplitude s p v t fo fi)) <= 0 ->
  fst (calculate_motion_amplitude s p v t fo fi) = 0.
Proof.
  unfold calculate_motion_amplitude; cbv zeta.
  destruct Rle_dec as [H|H]; simpl; [reflexivity|intros; lra].
Qed.

Lemma motion_amplitude_bound s p v t fo fi :
  fade_reachable s -> 0 <= p <= 1 ->
  0 <= fst (calculate_motion_amplitude s p v t fo fi) <= 0.9.
Proof.
  intros Hr Hp.
  assert (Hl : 0 <= fade_level (snd (calculate_motion_amplitude s p v t fo fi)) <= 1)
    by (apply fade_reachable_bounds; constructor; exact Hr).
  pose proof (distance_from_center_bound p Hp) as Hd.
  rewrite calculate_motion_amplitude_state in Hl; simpl in Hl.
  unfold calculate_motion_amplitude.
  set (l := next_fade_level (movement_detected v) (fade_level s)
              (fade_time_delta s t) fo fi) in *.
  set (d := Rabs (p - 0.5) * 2) in *.
  destruct (Rle_dec l 0); simpl; [lra|].
  assert (Hin : 0 <= (0.6 + d * 0.3) * l <= 0.9) by nra.
  rewrite (clamp_inside _ 0 1) by lra; exact Hin.
Qed.


Lemma get_pulses_at_time_eq hwmin hwmax dmin dmax ms pos vel time fo fi
    enabled cfg max_speed max_stroke_rate freq_a freq_b api master :
  get_pulses_at_time hwmin hwmax dmin dmax ms pos vel time fo fi
    enabled cfg max_speed max_stroke_rate freq_a freq_b api master =
  let normalized_pos := clamp ((pos + 1) / 2) 0 1 in
  let rv := next_realtime_velocity ms pos vel time in
  let r := calculate_motion_amplitude (fade ms) normalized_pos rv time fo fi in
  let d := update_dynamic_volume enabled (dyn ms) cfg max_speed max_stroke_rate vel time in
  let ab := apply_positional_effect (fst r) normalized_pos in
  let volume_at_time := (api * master) * fst d in
  (generate_motion_pulses hwmin hwmax dmin dmax freq_a freq_b
     (py_int (fst ab * volume_at_time * 100)) (py_int (snd ab * volume_at_time * 100)),
   mkMotion (snd r) (snd d) (Some pos) (Some time) rv (fst d)).
Proof.
  unfold get_pulses_at_time; cbv zeta.
  destruct calculate_motion_amplitude, update_dynamic_volume; reflexivity.
Qed.

Lemma generate_motion_pulses_intensity hwmin hwmax dmin dmax fa fb ia ib p :
  let pk := generate_motion_pulses hwmin hwmax dmin dmax fa fb ia ib in
  (In p (channel_a pk) -> intensity p = py_int (clamp (IZR ia) 0 100)) /\
  (In p (channel_b pk) -> intensity p = py_int (clamp (IZR ib) 0 100)).
Proof.
  cbv zeta; unfold generate_motion_pulses; cbn [channel_a channel_b].
  split; intros Hp; apply repeat_spec in Hp; subst p; reflexivity.
Qed.

Lemma py_int_clamp_zero : py_int (clamp (IZR (py_int 0)) 0 100) = 0%Z.
Proof.
  rewrite py_int_zero, (clamp_inside (IZR 0)) by (simpl; lra); exact py_int_zero.
Qed.

(** X13.  When the fade level after the update is [<= 0] (no movement for
    long enough, or from the start), every pulse of both channels has
    intensity [0], whatever the volumes. *)
Theorem faded_out_pulses_silent hwmin hwmax dmin dmax ms pos vel time fo fi
    enabled cfg max_speed max_stroke_rate freq_a freq_b api master :
  let r := get_pulses_at_time hwmin hwmax dmin dmax ms pos vel time fo fi
             enabled cfg max_speed max_stroke_rate freq_a freq_b api master in
  fade_level (fade (snd r)) <= 0 ->
  forall p, In p (channel_a (fst r)) \/ In p (channel_b (fst r)) -> intensity p = 0%Z.
Proof.
  cbv zeta; rewrite get_pulses_at_time_eq; cbv zeta; cbn [fst snd fade].
  intros Hf p Hp.
  rewrite (motion_amplitude_faded _ _ _ _ _ _ Hf) in Hp.
  unfold apply_positional_effect in Hp; cbv zeta in Hp; cbn [fst snd] in Hp.
  rewrite !Rmult_0_l in Hp.
  destruct (generate_motion_pulses_intensity hwmin hwmax dmin dmax freq_a freq_b
              (py_int 0) (py_int 0) p) as [Ha Hb].
  destruct Hp as [Hp|Hp]; [rewrite (Ha Hp)|rewrite (Hb Hp)]; exact py_int_clamp_zero.
Qed.

Lemma clamp_low x lo hi : x <= lo <= hi -> clamp x lo hi = lo.
Proof. intros H; unfold clamp, Rmax, Rmin; repeat destruct Rle_dec; lra. Qed.

Lemma clamp_high x lo hi : lo <= hi <= x -> clamp x lo hi = hi.
Proof. intros H; unfold clamp, Rmax, Rmin; repeat destruct Rle_dec; lra. Qed.

(** X14.  At the bottom of the stroke ([pos <= -1]) channel B is silent, at
    the top ([pos >= 1]) channel A is silent. *)
Theorem stroke_end_channel_silent hwmin hwmax dmin dmax ms pos vel time fo fi
    enabled cfg max_speed max_stroke_rate freq_a freq_b api master :
  let pk := fst (get_pulses_at_time hwmin hwmax dmin dmax ms pos vel time fo fi
                   enabled cfg max_speed max_stroke_rate freq_a freq_b api master) in
  (pos <= -1 -> forall p, In p (channel_b pk) -> intensity p = 0%Z) /\
  (1 <= pos -> forall p, In p (channel_a pk) -> intensity p = 0%Z).
Proof.
  cbv zeta; rewrite get_pulses_at_time_eq; cbv zeta; cbn [fst snd].
  unfold apply_positional_effect; cbv zeta; cbn [fst snd].
  split; intros Hpos p Hp.
  - rewrite (clamp_low ((pos + 1) / 2) 0 1) in Hp by lra.
    replace (0.5 * (1 - 1) + 0 * 1) with 0 in Hp by ring.
    rewrite sqrt_0, Rmult_0_r, !Rmult_0_l in Hp.
    apply (proj2 (generate_motion_pulses_intensity _ _ _ _ _ _ _ _ p)) in Hp.
    rewrite Hp; exact py_int_clamp_zero.
  - rewrite (clamp_high ((pos + 1) / 2) 0 1) in Hp by lra.
    replace (1 - (0.5 * (1 - 1) + 1 * 1)) with 0 in Hp by ring.
    rewrite sqrt_0, Rmult_0_r, !Rmult_0_l in Hp.
    apply (proj1 (generate_motion_pulses_intensity _ _ _ _ _ _ _ _ p)) in Hp.
    rewrite Hp; exact py_int_clamp_zero.
Qed.

Lemma intensity_chain_bound x :
  0 <= x <= 90 -> (0 <= py_int (clamp (IZR (py_int x)) 0 100) <= 90)%Z.
Proof.
  intros Hx.
  assert (Hi : (0 <= py_int x <= 90)%Z) by (apply py_int_within; simpl; lra).
  assert (Hr : 0 <= IZR (py_int x) <= 90)
    by (split; [apply IZR_le; lia|apply (IZR_le _ 90); lia]).
  rewrite (clamp_inside (IZR (py_int x))) by lra.
  apply py_int_within; simpl; lra.
Qed.

(** X15.  For a reachable fade state, api and master volumes in [[0,1]] and
    dynamic-volume settings in range, every pulse intensity of
    [get_pulses_at_time] lies in [[0, 90]]: the amplitude never exceeds
    [0.9] and no volume factor exceeds [1]. *)
Theorem pulse_intensity_at_most_90 hwmin hwmax dmin dmax ms pos vel time fo fi
    enabled cfg max_speed max_stroke_rate freq_a freq_b api master :
  fade_reachable (fade ms) ->
  0 <= api <= 1 -> 0 <= master <= 1 ->
  0 <= dynamic_sensitivity cfg <= 1 -> 0 <= dynamic_mix_ratio cfg <= 1 ->
  0 <= base_volume cfg <= 1 ->
  let pk := fst (get_pulses_at_time hwmin hwmax dmin dmax ms pos vel time fo fi
                   enabled cfg max_speed max_stroke_rate freq_a freq_b api master) in
  forall p, In p (channel_a pk) \/ In p (channel_b pk) -> (0 <= intensity p <= 90)%Z.
Proof.
  intros Hr Ha Hm Hs Hmix Hb; cbv zeta; rewrite get_pulses_at_time_eq; cbv zeta.
  cbn [fst snd]; intros p Hp.
  set (np := clamp ((pos + 1) / 2) 0 1) in Hp.
  assert (Hnp : 0 <= np <= 1) by (apply clamp_bounds; lra).
  pose proof (motion_amplitude_bound (fade ms) np (next_realtime_velocity ms pos vel time)
                time fo fi Hr Hnp) as Hamp.
  set (amp := fst (calculate_motion_amplitude (fade ms) np
                     (next_realtime_velocity ms pos vel time) time fo fi)) in Hp, Hamp.
  pose proof (dynamic_volume_bounds enabled (dyn ms) cfg max_speed max_stroke_rate vel time
                Hs Hmix (proj2 Hb)) as Hdv.
  set (dv := fst (update_dynamic_volume enabled (dyn ms) cfg max_speed max_stroke_rate
                    vel time)) in Hp, Hdv.
  unfold apply_positional_effect in Hp; cbv zeta in Hp; cbn [fst snd] in Hp.
  replace (0.5 * (1 - 1) + np * 1) with np in Hp by ring.
  assert (Hsa : 0 <= sqrt (1 - np) <= 1)
    by (split; [apply sqrt_pos|apply Rle_trans with (sqrt 1); [apply sqrt_le_1_alt; lra|rewrite sqrt_1; lra]]).
  assert (Hsb : 0 <= sqrt np <= 1)
    by (split; [apply sqrt_pos|apply Rle_trans with (sqrt 1); [apply sqrt_le_1_alt; lra|rewrite sqrt_1; lra]]).
  assert (Hvol : 0 <= api * master * dv <= 1).
  { assert (0 <= api * master <= 1) by nra. nra. }
  assert (HA : 0 <= amp * sqrt (1 - np) <= 0.9) by nra.
  assert (HB : 0 <= amp * sqrt np <= 0.9) by nra.
  destruct Hp as [Hp|Hp].
  - apply (proj1 (generate_motion_pulses_intensity _ _ _ _ _ _ _ _ p)) in Hp.
    rewrite Hp; apply intensity_chain_bound; nra.
  - apply (proj2 (generate_motion_pulses_intensity _ _ _ _ _ _ _ _ p)) in Hp.
    rewrite Hp; apply intensity_chain_bound; nra.
Qed.

Lemma next_realtime_velocity_tracked f d p t rv cdv pos' vel' t' :
  next_realtime_velocity (mkMotion f d (Some p) (Some t) rv cdv) pos' vel' t' =
  if Rlt_dec 0.001 (t' - t) then (pos' - p) / (t' - t) else rv.
Proof. reflexivity. Qed.

(** X16.  Over two successive calls of [get_pulses_at_time], the second
    call keeps the real-time velocity of the first when it comes at most
    1 ms later, and otherwise uses the finite difference of the two
    positions. *)
Theorem realtime_velocity_two_calls hwmin hwmax dmin dmax ms pos vel t pos' vel' t'
    fo fi enabled cfg max_speed max_stroke_rate freq_a freq_b api master :
  let ms1 := snd (get_pulses_at_time hwmin hwmax dmin dmax ms pos vel t fo fi
                    enabled cfg max_speed max_stroke_rate freq_a freq_b api master) in
  let ms2 := snd (get_pulses_at_time hwmin hwmax dmin dmax ms1 pos' vel' t' fo fi
                    enabled cfg max_speed max_stroke_rate freq_a freq_b api master) in
  (t' - t <= 0.001 -> realtime_velocity ms2 = realtime_velocity ms1) /\
  (0.001 < t' - t -> realtime_velocity ms2 = (pos' - pos) / (t' - t)).
Proof.
  cbv zeta; rewrite !get_pulses_at_time_eq; cbv zeta; cbn [snd realtime_velocity].
  rewrite next_realtime_velocity_tracked.
  destruct (Rlt_dec 0.001 (t' - t)); split; intros; try reflexivity; lra.
Qed.

(** *** [MotionDynamicVolumeAxis] *)

Lemma Rdiv_nonneg a b : 0 <= a -> 0 <= b -> 0 <= a / b.
Proof.
  intros Ha Hb; destruct (Req_dec b 0) as [->|Hne].
  - unfold Rdiv; rewrite Rinv_0, Rmult_0_r; lra.
  - apply Rmult_le_pos; [exact Ha|apply Rlt_le, Rinv_0_lt_compat; lra].
Qed.

Lemma consecutive_abs_diffs_nonneg l x :
  In x (consecutive_abs_diffs l) -> 0 <= x.
Proof.
  induction l as [|a l IH]; simpl; [intros []|].
  destruct l as [|b l]; [intros []|].
  intros [<-|Hx]; [apply Rabs_pos|exact (IH Hx)].
Qed.

Lemma Rsum_nonneg (l : list R) : (forall x, In x l -> 0 <= x) -> 0 <= Rsum l.
Proof.
  induction l as [|x l IH]; intros Hl; simpl; [lra|].
  pose proof (Hl x (or_introl eq_refl)).
  assert (0 <= Rsum l) by (apply IH; intros y Hy; apply Hl; right; exact Hy).
  unfold Rsum in *; lra.
Qed.

Lemma activity_level_bounds f window_size current_time :
  0 <= calculate_recent_activity_level f window_size current_time <= 1.
Proof.
  unfold calculate_recent_activity_level; cbv zeta.
  destruct (_ <? 2)%nat; [lra|].
  match goal with |- context [Rmin (?a / 50) 1] =>
    assert (Ha : 0 <= a) end.
  { apply Rdiv_nonneg; [|apply pos_INR].
    apply Rsum_nonneg; intros x Hx; exact (consecutive_abs_diffs_nonneg _ _ Hx). }
  unfold Rmin; destruct Rle_dec; lra.
Qed.

(** X17.  [MotionDynamicVolumeAxis.interpolate] always returns a value in
    [[0.5, 1.5]], for any funscript axis, window size and timestamp. *)
Theorem dynamic_volume_axis_range f window_size timestamp :
  0.5 <= dynamic_volume_axis_interpolate f window_size timestamp <= 1.5.
Proof.
  unfold dynamic_volume_axis_interpolate; cbv zeta.
  pose proof (activity_level_bounds f window_size timestamp); lra.
Qed.

Lemma py_int_lt_2 x : x < 2 -> (py_int x <= 1)%Z.
Proof.
  intros Hx; unfold py_int.
  destruct Rle_dec as [H|H].
  - destruct (base_Int_part x) as [H1 _].
    assert (IZR (Int_part x) < IZR 2) by (simpl; lra).
    apply lt_IZR in H0; lia.
  - destruct (base_Int_part (- x)) as [_ H2].
    assert (IZR (-1) < IZR (Int_part (- x))) by (simpl; lra).
    apply lt_IZR in H0; lia.
Qed.

Lemma py_int_ge_2 x : 2 <= x -> (2 <= py_int x)%Z.
Proof.
  intros Hx; unfold py_int.
  destruct Rle_dec as [H|H]; [|lra].
  destruct (base_Int_part x) as [_ H2].
  assert (IZR 1 < IZR (Int_part x)) by (simpl; lra).
  apply lt_IZR in H0; lia.
Qed.

(** X18.  With a window shorter than [0.2] s fewer than two samples are
    taken and [interpolate] returns [1.0] whatever the funscript does. *)
Theorem dynamic_volume_axis_short_window f window_size timestamp :
  window_size < 0.2 ->
  dynamic_volume_axis_interpolate f window_size timestamp = 1.
Proof.
  intros Hw; unfold dynamic_volume_axis_interpolate, calculate_recent_activity_level; cbv zeta.
  assert (Hn : (py_int (window_size / 0.1) <= 1)%Z) by (apply py_int_lt_2; lra).
  rewrite length_map, length_seq.
  replace (Z.to_nat (py_int (window_size / 0.1)) <? 2)%nat with true
    by (symmetry; apply Nat.ltb_lt; lia).
  lra.
Qed.

Lemma consecutive_abs_diffs_const (c : R) (l : list R) x :
  (forall y, In y l -> y = c) -> In x (consecutive_abs_diffs l) -> x = 0.
Proof.
  induction l as [|a l IH]; intros Hl; simpl; [intros []|].
  destruct l as [|b l]; [intros []|].
  intros [<-|Hx].
  - rewrite (Hl a (or_introl eq_refl)), (Hl b (or_intror (or_introl eq_refl))).
    rewrite Rminus_diag; exact Rabs_R0.
  - apply IH; [intros y Hy; apply Hl; right; exact Hy|exact Hx].
Qed.

(** X19.  For a funscript axis that stays at one value and a window of at
    least [0.2] s the activity level is [0] and [interpolate] returns
    [0.5]; by X18 the same axis gives [1.0] with a shorter window. *)
Theorem dynamic_volume_axis_constant (c window_size timestamp : R) :
  0.2 <= window_size ->
  dynamic_volume_axis_interpolate (fun _ => c) window_size timestamp = 0.5.
Proof.
  intros Hw; unfold dynamic_volume_axis_interpolate, calculate_recent_activity_level; cbv zeta.
  assert (Hn : (2 <= py_int (window_size / 0.1))%Z) by (apply py_int_ge_2; lra).
  rewrite length_map, length_seq.
  replace (Z.to_nat (py_int (window_size / 0.1)) <? 2)%nat with false
    by (symmetry; apply Nat.ltb_ge; lia).
  set (l := map (fun _ : nat => c) _).
  assert (Hz : Rsum (consecutive_abs_diffs l) = 0).
  { assert (Hall : forall x, In x (consecutive_abs_diffs l) -> 0 <= x <= 0).
    { intros x Hx; rewrite (consecutive_abs_diffs_const c l x); [lra| |exact Hx].
      intros y Hy; unfold l in Hy; apply in_map_iff in Hy as (i & <- & _); reflexivity. }
    pose proof (Rsum_bounds _ 0 Hall); lra. }
  rewrite Hz; unfold Rdiv; rewrite !Rmult_0_l.
  unfold Rmin; destruct Rle_dec; lra.
Qed.

(** *** Packet schedule *)

(** X20.  For whole-number pulse-duration bounds [1 <= MIN <= MAX] the
    packet of [_generate_motion_pulses] makes [generate_packet] schedule the
    next update at [0.65] times the shorter channel's train, that is
    [4 * min(duration_a, duration_b)] ms. *)
Theorem motion_packet_schedule hwmin hwmax (dmin dmax : Z) fa fb ia ib current_time :
  (1 <= dmin <= dmax)%Z ->
  let duration_a := py_int (clamp (1000 / clamp fa hwmin hwmax) (IZR dmin) (IZR dmax)) in
  let duration_b := py_int (clamp (1000 / clamp fb hwmin hwmax) (IZR dmin) (IZR dmax)) in
  next_update_time current_time
    (generate_motion_pulses hwmin hwmax (IZR dmin) (IZR dmax) fa fb ia ib) =
  current_time + IZR (4 * Z.min duration_a duration_b) / 1000 * 0.65.
Proof.
  intros Hd duration_a duration_b.
  assert (Hdr : IZR dmin <= IZR dmax) by (apply IZR_le; lia).
  assert (Ha : (dmin <= duration_a <= dmax)%Z)
    by (apply py_int_within; apply clamp_bounds; exact Hdr).
  assert (Hb : (dmin <= duration_b <= dmax)%Z)
    by (apply py_int_within; apply clamp_bounds; exact Hdr).
  unfold next_update_time, generate_motion_pulses; cbv zeta; cbn [channel_a channel_b].
  fold duration_a duration_b.
  unfold channel_duration; cbn [repeat fold_right duration].
  f_equal; f_equal; f_equal; f_equal.
  unfold min_duration_ms.
  destruct (Z.ltb_spec 0 (Z.min (duration_a + (duration_a + (duration_a + (duration_a + 0))))
              (duration_b + (duration_b + (duration_b + (duration_b + 0)))))); [|lia].
  lia.
Qed.

(** *** Packets scheduled by [generate_packet] *)

Lemma py_int_ge_1 x : 1 <= x -> (1 <= py_int x)%Z.
Proof.
  intros Hx; unfold py_int.
  destruct Rle_dec as [H|H]; [|lra].
  destruct (base_Int_part x) as [_ H2].
  assert (IZR 0 < IZR (Int_part x)) by (simpl; lra).
  apply lt_IZR in H0; lia.
Qed.

Lemma generated_duration_pos f lo hi :
  1 <= lo -> (1 <= py_int (clamp f lo hi))%Z.
Proof.
  intros Hlo; apply py_int_ge_1.
  unfold clamp; eapply Rle_trans; [exact Hlo|apply Rmax_l].
Qed.

(** C2.  For every packet [generate_packet] schedules, i.e. the packet
    [get_pulses_at_time(current_time)] builds with [_generate_motion_pulses],
    and a minimum pulse duration [MIN_PULSE_DURATION_MS >= 1]: both pulse
    trains last a positive number of ms [a] and [b], the next poll is
    [current_time + 0.65 * min(a, b) / 1000] (the minimum non-zero channel
    duration; the both-zero fallback never arises), and the scheduled
    interval is strictly positive. *)
Theorem generated_packet_schedule hwmin hwmax dmin dmax ms pos vel current_time fo fi
    enabled cfg max_speed max_stroke_rate freq_a freq_b api master :
  1 <= dmin ->
  let pk := fst (get_pulses_at_time hwmin hwmax dmin dmax ms pos vel current_time fo fi
                   enabled cfg max_speed max_stroke_rate freq_a freq_b api master) in
  let a := channel_duration (channel_a pk) in
  let b := channel_duration (channel_b pk) in
  (0 < a)%Z /\ (0 < b)%Z /\
  next_update_time current_time pk = current_time + 0.65 * IZR (Z.min a b) / 1000 /\
  current_time < next_update_time current_time pk.
Proof.
  intros Hd pk a b.
  assert (Ha : (0 < a)%Z /\ (0 < b)%Z).
  { unfold a, b, pk; rewrite get_pulses_at_time_eq; cbv zeta; cbn [fst].
    unfold generate_motion_pulses; cbv zeta; cbn [channel_a channel_b].
    unfold channel_duration; cbn [repeat fold_right duration].
    pose proof (generated_duration_pos (1000 / clamp freq_a hwmin hwmax) dmin dmax Hd).
    pose proof (generated_duration_pos (1000 / clamp freq_b hwmin hwmax) dmin dmax Hd).
    lia. }
  destruct Ha as [Ha Hb].
  destruct (next_update_schedule current_time pk) as (Hdt & Hpos & Hboth & _).
  fold a b in Hdt, Hpos, Hboth.
  split; [exact Ha|]. split; [exact Hb|].
  split; [rewrite <- (Hboth Ha Hb); ring|lra].
Qed.

(** ** Witnesses of the further properties *)

Lemma dynamic_volume_range_witness :
  (0 <= dynamic_sensitivity dyn_settings_example <= 1 /\
   0 <= dynamic_mix_ratio dyn_settings_example <= 1 /\
   base_volume dyn_settings_example <= 1) /\
  base_volume dyn_settings_example
    <= fst (update_dynamic_volume true dyn_init dyn_settings_example 5 2 0.3 1) <= 1.
Proof.
  assert (Hs : 0 <= dynamic_sensitivity dyn_settings_example <= 1) by (simpl; lra).
  assert (Hm : 0 <= dynamic_mix_ratio dyn_settings_example <= 1) by (simpl; lra).
  assert (Hb : base_volume dyn_settings_example <= 1) by (simpl; lra).
  split; [split; [exact Hs|split; [exact Hm|exact Hb]]|].
  exact (dynamic_volume_range true dyn_init dyn_settings_example 5 2 0.3 1 Hs Hm Hb).
Defined.

Lemma check_recalibration_idempotent_witness :
  check_recalibration_needed numpy_example (set_last_timeframe engine_init 1) 1
    (set_last_timeframe engine_init 1) /\
  last_calibration_timeframe (set_last_timeframe engine_init 1) = Some 1.
Proof.
  assert (H : check_recalibration_needed numpy_example (set_last_timeframe engine_init 1) 1
                (set_last_timeframe engine_init 1)) by (apply check_unchanged; reflexivity).
  split; [exact H|].
  exact (proj1 (check_recalibration_idempotent _ _ _ _ H)).
Defined.

Lemma recalibrate_hangs_nonpositive_timeframe_witness :
  (2 <= List.length (velocity_data two_sample_engine))%nat /\
  0 < time_span_of (profile_times two_sample_engine) /\ 0 <= 0 /\
  ~ exists st', recalibrate_velocity_range numpy_example two_sample_engine 0 st'.
Proof.
  assert (H1 : (2 <= List.length (velocity_data two_sample_engine))%nat) by (simpl; lia).
  assert (H2 : 0 < time_span_of (profile_times two_sample_engine))
    by (unfold time_span_of, profile_times; simpl; lra).
  assert (H3 : (0 : R) <= 0) by lra.
  split; [exact H1|]. split; [exact H2|]. split; [exact H3|].
  exact (recalibrate_hangs_nonpositive_timeframe numpy_example two_sample_engine 0 H1 H2 H3).
Defined.

Lemma recalibrate_terminates_witness :
  0 < 1 /\ exists st', recalibrate_velocity_range numpy_example two_sample_engine 1 st'.
Proof.
  assert (H : (0 : R) < 1) by lra.
  split; [exact H|].
  exact (recalibrate_terminates numpy_example two_sample_engine 1 H).
Defined.

Lemma average_velocity_bounded_witness :
  get_average_velocity_in_window numpy_example calibrated_engine None 1 0.5 calibrated_engine
    (average_velocity_in_window (velocity_data calibrated_engine)
       (map_video_time None 0.5) 1) /\
  0 <= average_velocity_in_window (velocity_data calibrated_engine)
         (map_video_time None 0.5) 1 <= max_abs_velocity (velocity_data calibrated_engine).
Proof.
  assert (H : get_average_velocity_in_window numpy_example calibrated_engine None 1 0.5
                calibrated_engine
                (average_velocity_in_window (velocity_data calibrated_engine)
                   (map_video_time None 0.5) 1))
    by (apply get_average; apply check_unchanged; reflexivity).
  split; [exact H|].
  exact (average_velocity_bounded _ _ _ _ _ _ _ H).
Defined.

Lemma average_velocity_empty_window_witness :
  get_average_velocity_in_window numpy_example calibrated_engine (Some 5) 1 0.5
    calibrated_engine
    (average_velocity_in_window (velocity_data calibrated_engine)
       (map_video_time (Some 5) 0.5) 1) /\
  average_velocity_in_window (velocity_data calibrated_engine)
    (map_video_time (Some 5) 0.5) 1 = 0.
Proof.
  assert (H : get_average_velocity_in_window numpy_example calibrated_engine (Some 5) 1 0.5
                calibrated_engine
                (average_velocity_in_window (velocity_data calibrated_engine)
                   (map_video_time (Some 5) 0.5) 1))
    by (apply get_average; apply check_unchanged; reflexivity).
  split; [exact H|].
  apply (average_velocity_empty_window _ _ _ _ _ _ _ H).
  intros tv Hin; simpl in Hin; unfold map_video_time.
  destruct (Rle_dec 0 5); [|lra].
  destruct Hin as [<-|[<-|[]]]; simpl; lra.
Defined.

Lemma frequency_factor_zero_witness :
  frequency_velocity_factor (freq_settings_factor 0) = 0 /\ 70 <= 100 /\
  calculate_enhanced_frequency (freq_settings_factor 0) "Position Based" 70 100 3 5 0.25 0
  = calculate_enhanced_frequency (freq_settings_factor 0) "Position Based" 70 100 9 2 0.25 0.
Proof.
  assert (H1 : frequency_velocity_factor (freq_settings_factor 0) = 0) by reflexivity.
  assert (H2 : (70 : R) <= 100) by lra.
  split; [exact H1|]. split; [exact H2|].
  exact (proj1 (frequency_factor_zero _ "Position Based" 70 100 3 5 9 2 0.25 0 H1 H2)).
Defined.

Lemma frequency_factor_one_witness :
  frequency_velocity_factor (freq_settings_factor 1) = 1 /\ 70 <= 100 /\
  calculate_enhanced_frequency (freq_settings_factor 1) "throbbing" 70 100 3 5 0.25 0
    = 70 + clamp (3 / 5) 0 1 * (100 - 70).
Proof.
  assert (H1 : frequency_velocity_factor (freq_settings_factor 1) = 1) by reflexivity.
  assert (H2 : (70 : R) <= 100) by lra.
  split; [exact H1|]. split; [exact H2|].
  exact (frequency_factor_one _ "throbbing" 70 100 3 5 0.25 0 H1 H2).
Defined.

Lemma position_frequency_monotone_witness :
  0 <= frequency_velocity_factor freq_settings_example <= 1 /\ 70 <= 100 /\ 0.2 <= 0.8 /\
  calculate_enhanced_frequency freq_settings_example "POSITION" 70 100 3 5 0.2 0
  <= calculate_enhanced_frequency freq_settings_example "POSITION" 70 100 3 5 0.8 0.
Proof.
  assert (H1 : 0 <= frequency_velocity_factor freq_settings_example <= 1) by (simpl; lra).
  assert (H2 : (70 : R) <= 100) by lra.
  assert (H3 : (0.2 : R) <= 0.8) by lra.
  split; [exact H1|]. split; [exact H2|]. split; [exact H3|].
  exact (position_frequency_monotone _ 70 100 3 5 0 0.2 0.8 H1 H2 H3).
Defined.

Lemma has_funscript_data_after_load_witness :
  (forall ys xs, List.length (np_gradient numpy_zero_gradient ys xs) = List.length ys) /\
  precompute_motion_data numpy_zero_gradient engine_init None 1 (default_profile engine_init) /\
  (has_funscript_data (default_profile engine_init) = true <->
   exists times positions, @None (list R * list R) = Some (times, positions) /\
     (2 <= List.length times)%nat /\ (2 <= List.length positions)%nat).
Proof.
  assert (Hg : forall ys xs, List.length (np_gradient numpy_zero_gradient ys xs)
                             = List.length ys)
    by (intros ys xs; apply length_map).
  assert (Hp : precompute_motion_data numpy_zero_gradient engine_init None 1
                 (default_profile engine_init)) by constructor.
  split; [exact Hg|]. split; [exact Hp|].
  exact (has_funscript_data_after_load _ _ _ _ _ Hg Hp).
Defined.

Lemma faded_out_pulses_silent_witness :
  let r := get_pulses_at_time 1 100 10 1000 motion_init 0 0 0 1 1
             true dyn_settings_example 5 2 80 80 1 1 in
  fade_level (fade (snd r)) <= 0 /\
  forall p, In p (channel_a (fst r)) \/ In p (channel_b (fst r)) -> intensity p = 0%Z.
Proof.
  cbv zeta.
  assert (H : fade_level (fade (snd (get_pulses_at_time 1 100 10 1000 motion_init 0 0 0 1 1
                true dyn_settings_example 5 2 80 80 1 1))) <= 0).
  { rewrite get_pulses_at_time_eq; cbv zeta; cbn [snd fade].
    rewrite calculate_motion_amplitude_state; cbn [fade_level].
    unfold next_realtime_velocity, motion_init; cbn [prev_position fade].
    rewrite movement_detected_false by (rewrite Rabs_R0; lra).
    unfold next_fade_level, fade_time_delta, fade_init; cbn [last_fade_time fade_level].
    destruct (Rlt_dec 0 1); [|lra]; destruct (Rlt_dec 0 0); [lra|lra]. }
  split; [exact H|].
  exact (faded_out_pulses_silent 1 100 10 1000 motion_init 0 0 0 1 1
           true dyn_settings_example 5 2 80 80 1 1 H).
Defined.

Lemma pulse_intensity_at_most_90_witness :
  fade_reachable (fade motion_init) /\ 0 <= 1 <= 1 /\
  0 <= dynamic_sensitivity dyn_settings_example <= 1 /\
  0 <= dynamic_mix_ratio dyn_settings_example <= 1 /\
  0 <= base_volume dyn_settings_example <= 1 /\
  forall p, In p (channel_a (fst (get_pulses_at_time 1 100 10 1000 motion_init (-1) 0.5 0 1 1
                                   true dyn_settings_example 5 2 80 80 1 1))) \/
            In p (channel_b (fst (get_pulses_at_time 1 100 10 1000 motion_init (-1) 0.5 0 1 1
                                   true dyn_settings_example 5 2 80 80 1 1))) ->
  (0 <= intensity p <= 90)%Z.
Proof.
  assert (Hr : fade_reachable (fade motion_init)) by exact fade_reach_init.
  assert (H1 : (0 : R) <= 1 <= 1) by lra.
  assert (Hs : 0 <= dynamic_sensitivity dyn_settings_example <= 1) by (simpl; lra).
  assert (Hm : 0 <= dynamic_mix_ratio dyn_settings_example <= 1) by (simpl; lra).
  assert (Hb : 0 <= base_volume dyn_settings_example <= 1) by (simpl; lra).
  split; [exact Hr|]. split; [exact H1|]. split; [exact Hs|]. split; [exact Hm|].
  split; [exact Hb|].
  exact (pulse_intensity_at_most_90 1 100 10 1000 motion_init (-1) 0.5 0 1 1
           true dyn_settings_example 5 2 80 80 1 1 Hr H1 H1 Hs Hm Hb).
Defined.

Lemma dynamic_volume_axis_short_window_witness :
  0.1 < 0.2 /\ dynamic_volume_axis_interpolate (fun x => x) 0.1 3 = 1.
Proof.
  assert (H : (0.1 : R) < 0.2) by lra.
  split; [exact H|].
  exact (dynamic_volume_axis_short_window (fun x => x) 0.1 3 H).
Defined.

Lemma dynamic_volume_axis_constant_witness :
  0.2 <= 1 /\ dynamic_volume_axis_interpolate (fun _ => 0.4) 1 3 = 0.5.
Proof.
  assert (H : (0.2 : R) <= 1) by lra.
  split; [exact H|].
  exact (dynamic_volume_axis_constant 0.4 1 3 H).
Defined.

Lemma motion_packet_schedule_witness :
  (1 <= 10 <= 1000)%Z /\
  next_update_time 2 (generate_motion_pulses 1 100 (IZR 10) (IZR 1000) 50 20 30 40) =
  2 + IZR (4 * Z.min (py_int (clamp (1000 / clamp 50 1 100) (IZR 10) (IZR 1000)))
                      (py_int (clamp (1000 / clamp 20 1 100) (IZR 10) (IZR 1000)))) / 1000 * 0.65.
Proof.
  assert (H : (1 <= 10 <= 1000)%Z) by lia.
  split; [exact H|].
  exact (motion_packet_schedule 1 100 10 1000 50 20 30 40 2 H).
Defined.

Lemma generated_packet_schedule_witness :
  1 <= 10 /\
  let pk := fst (get_pulses_at_time 1 100 10 1000 motion_init 0.5 1 2 1 1
                   true dyn_settings_example 5 2 50 20 1 1) in
  next_update_time 2 pk =
  2 + 0.65 * IZR (Z.min (channel_duration (channel_a pk)) (channel_duration (channel_b pk)))
        / 1000.
Proof.
  assert (H : (1 : R) <= 10) by lra.
  split; [exact H|].
  exact (proj1 (proj2 (proj2 (generated_packet_schedule 1 100 10 1000 motion_init 0.5 1 2 1 1
           true dyn_settings_example 5 2 50 20 1 1 H)))).
Defined.
